(** * pythonfinder.utils: name matching, version parsing, company guessing

    A shallow embedding of [src/pythonfinder/utils.py].  Python [str]
    values are modelled as Rocq strings (characters in the range 0..255);
    on that range [\d] is exactly [0-9] and [str.lower] only moves the
    ASCII and Latin-1 capitals.  The [lru_cache] decorators are transparent
    for pure functions and are not modelled; [int] raises ValueError
    beyond the interpreter's default limit of 4300 digits.  Besides the
    matching and parsing engine the file covers [filter_pythons],
    [unnest], the two version-order readers, [split_version_and_name]
    and [is_in_path]. *)

From Stdlib Require Import Ascii String List Bool Arith Lia ZArith.
Import ListNotations.

(** ** Python string primitives *)

Module Py.

Definition chars : string -> list ascii := list_ascii_of_string.
Definition str : list ascii -> string := string_of_list_ascii.

Definition code (c : ascii) : nat := nat_of_ascii c.

Definition in_range (lo hi : nat) (c : ascii) : bool :=
  (lo <=? code c) && (code c <=? hi).

Definition is_digit (c : ascii) : bool := in_range 48 57 c.
Definition is_upper (c : ascii) : bool := in_range 65 90 c.
Definition is_lower_az (c : ascii) : bool := in_range 97 122 c.

(** [str.lower] on one character of the Latin-1 range. *)
Definition lower_char (c : ascii) : ascii :=
  if is_upper c then ascii_of_nat (code c + 32)
  else if in_range 192 222 c && negb (code c =? 215) then ascii_of_nat (code c + 32)
  else c.

Definition lower (s : list ascii) : list ascii := map lower_char s.

(** [\s] for [str] patterns, on the Latin-1 range. *)
Definition is_space (c : ascii) : bool :=
  in_range 9 13 c || in_range 28 32 c || (code c =? 133) || (code c =? 160).

Definition ascii_eqb (a b : ascii) : bool := Ascii.eqb a b.

#[global] Arguments ascii_eqb : simpl never.

Fixpoint startswith (s p : list ascii) : bool :=
  match p, s with
  | [], _ => true
  | c :: p', d :: s' => ascii_eqb c d && startswith s' p'
  | _ :: _, [] => false
  end.

Definition endswith (s p : list ascii) : bool :=
  startswith (rev s) (rev p).

(** [sub in s] for strings. *)
Fixpoint contains (s sub : list ascii) : bool :=
  startswith s sub ||
  match s with
  | [] => false
  | _ :: s' => contains s' sub
  end.

Fixpoint list_eqb (a b : list ascii) : bool :=
  match a, b with
  | [], [] => true
  | c :: a', d :: b' => ascii_eqb c d && list_eqb a' b'
  | _, _ => false
  end.

(** [s.split(sep)] for a one-character separator. *)
Fixpoint split (sep : ascii) (s : list ascii) : list (list ascii) :=
  match s with
  | [] => [[]]
  | c :: s' =>
      if ascii_eqb c sep then [] :: split sep s'
      else match split sep s' with
           | [] => [[c]]
           | w :: ws => (c :: w) :: ws
           end
  end.

(** [sep.join(parts)]. *)
Fixpoint join (sep : list ascii) (parts : list (list ascii)) : list ascii :=
  match parts with
  | [] => []
  | [p] => p
  | p :: ps => p ++ sep ++ join sep ps
  end.

(** Index of the last occurrence of [c] in [s] ([str.rfind]). *)
Fixpoint rfind (c : ascii) (s : list ascii) : option nat :=
  match s with
  | [] => None
  | d :: s' =>
      match rfind c s' with
      | Some i => Some (S i)
      | None => if ascii_eqb d c then Some 0 else None
      end
  end.

(** Head of [s.rpartition(sep)] for a one-character separator: the part
    before the last [sep], or the empty string when there is none. *)
Definition rpartition_head (sep : ascii) (s : list ascii) : list ascii :=
  match rfind sep s with
  | Some i => firstn i s
  | None => []
  end.

(** [int(s)] on a string of decimal digits: the value it returns when
    it returns. *)
Definition digit_val (c : ascii) : Z := Z.of_nat (code c) - 48.

Definition int (s : list ascii) : Z :=
  fold_left (fun acc c => 10 * acc + digit_val c)%Z s 0%Z.

(** The interpreter's default limit on the digits of a converted
    string ([sys.int_info.default_max_str_digits]); on a string of more
    digits, leading zeros included, [int(s)] raises ValueError. *)
Definition int_max_str_digits : nat := 4300.

Definition int_raises (s : list ascii) : bool :=
  int_max_str_digits <? length s.

#[global] Arguments int_raises : simpl never.

End Py.

(** ** A backtracking regular-expression matcher

    The fragment of Python's [re] that the module's patterns use.  A match
    state carries the consumed input (reversed), the remaining input and
    the groups captured so far; [run r s] lists the states in which [r]
    can end when started in [s], in the order the backtracking engine
    tries them: greedy repetition first, alternatives left to right. *)

Module Re.

Inductive regex : Type :=
| Eps
| Chr (p : ascii -> bool)
| Seq (a b : regex)
| Alt (a b : regex)
| Opt (a : regex)
| Star (a : regex)
| Group (name : string) (a : regex)
| NotAhead (a : regex)
| Behind (p : ascii -> bool)
| Eos.

Record state : Type := mkState {
  before : list ascii;
  rest : list ascii;
  caps : list (string * list ascii)
}.

Definition init (s : list ascii) : state := mkState [] s [].

(** Text consumed between two states of one run. *)
Definition text (s s' : state) : list ascii :=
  rev (firstn (length (before s') - length (before s)) (before s')).

Definition capture (g : string) (s s' : state) : state :=
  mkState (before s') (rest s') ((g, text s s') :: caps s').

Definition step (p : ascii -> bool) (s : state) : list state :=
  match rest s with
  | c :: t => if p c then [mkState (c :: before s) t (caps s)] else []
  | [] => []
  end.

Fixpoint run (r : regex) (s : state) : list state :=
  match r with
  | Eps => [s]
  | Chr p => step p s
  | Seq a b => flat_map (run b) (run a s)
  | Alt a b => run a s ++ run b s
  | Opt a => run a s ++ [s]
  | Star a =>
      (fix loop (n : nat) (s : state) {struct n} : list state :=
         match n with
         | O => [s]
         | S n' =>
             flat_map
               (fun s' =>
                  if length (rest s') <? length (rest s) then loop n' s' else [])
               (run a s)
             ++ [s]
         end) (length (rest s)) s
  | Group g a => map (capture g s) (run a s)
  | NotAhead a => match run a s with [] => [s] | _ :: _ => [] end
  | Behind p =>
      match before s with
      | c :: _ => if p c then [s] else []
      | [] => []
      end
  | Eos => match rest s with [] => [s] | _ :: _ => [] end
  end.

Definition Plus (a : regex) : regex := Seq a (Star a).
Definition Lit1 (c : ascii) : regex := Chr (Py.ascii_eqb c).

Fixpoint LitL (s : list ascii) : regex :=
  match s with
  | [] => Eps
  | c :: s' => Seq (Lit1 c) (LitL s')
  end.

Definition Lit (s : string) : regex := LitL (Py.chars s).

Definition OneOf (s : string) : regex :=
  Chr (fun c => existsb (Py.ascii_eqb c) (Py.chars s)).

Fixpoint AltL (rs : list regex) : regex :=
  match rs with
  | [] => NotAhead Eps
  | [r] => r
  | r :: rs' => Alt r (AltL rs')
  end.

Fixpoint SeqL (rs : list regex) : regex :=
  match rs with
  | [] => Eps
  | [r] => r
  | r :: rs' => Seq r (SeqL rs')
  end.

(** [pattern.match(s)]: the first state the engine reaches, if any. *)
Definition match_ (r : regex) (s : list ascii) : option state :=
  hd_error (run r (init s)).

(** [m.group(name)] / [m.groupdict()[name]]: the last capture of [name],
    [None] when the group took no part in the match. *)
Fixpoint group (cs : list (string * list ascii)) (g : string) : option (list ascii) :=
  match cs with
  | [] => None
  | (k, v) :: cs' => if String.eqb k g then Some v else group cs' g
  end.

(** The entry of [m.groupdict()] for [name]. *)
Definition get (m : state) (name : string) : option (list ascii) :=
  group (caps m) name.

End Re.

(** ** Collaborators from the Python standard library and [packaging] *)

(** What the module reads from the host at import time: [os.name == "nt"]
    and the value of [PATHEXT] in [os.environ], empty when unset. *)
Record Env : Type := mkEnv {
  os_name_nt : bool;
  environ_PATHEXT : string
}.

Definition posix : Env := mkEnv false EmptyString.
Definition windows (pathext : string) : Env := mkEnv true pathext.

Definition os_pathsep (e : Env) : ascii :=
  if os_name_nt e then ";"%char else ":"%char.

(** The answers of [os.access(p, os.X_OK)] and [os.access(p, os.R_OK)]. *)
Record FS : Type := mkFS {
  access_X_OK : string -> bool;
  access_R_OK : string -> bool
}.

Module Fnmatch.

(** [fnmatch.fnmatchcase] on patterns made of [*], [?] and literal
    characters, which is what every rule of the module is made of; a
    bracket expression could only come from [PATHEXT] and is read
    literally here. *)
Fixpoint fnmatchcase (name pat : list ascii) {struct pat} : bool :=
  match pat with
  | [] => match name with [] => true | _ :: _ => false end
  | c :: pat' =>
      if Py.ascii_eqb c "*" then
        (fix star (name : list ascii) : bool :=
           fnmatchcase name pat' ||
           match name with
           | [] => false
           | _ :: name' => star name'
           end) name
      else if Py.ascii_eqb c "?" then
        match name with
        | [] => false
        | _ :: name' => fnmatchcase name' pat'
        end
      else
        match name with
        | [] => false
        | d :: name' => Py.ascii_eqb c d && fnmatchcase name' pat'
        end
  end.

(** [os.path.normcase]: the identity on POSIX; on Windows it lowers the
    case and turns [/] into [\]. *)
Definition normcase (e : Env) (s : list ascii) : list ascii :=
  if os_name_nt e
  then Py.lower (map (fun c => if Py.ascii_eqb c "/" then "\"%char else c) s)
  else s.

Definition fnmatch (e : Env) (name pat : list ascii) : bool :=
  fnmatchcase (normcase e name) (normcase e pat).

End Fnmatch.

(** [packaging.version]: the strict (PEP 440) normalizer.  It is a
    dependency of the module, modelled from its published pattern
    [VERSION_PATTERN], compiled with [re.VERBOSE | re.IGNORECASE] and
    anchored as [^\s*...\s*$]. *)
Module Packaging.

Import Re.

Definition digits1 : regex := Plus (Chr Py.is_digit).
Definition sep : regex := Opt (OneOf "-_.").
Definition alnum : regex :=
  Chr (fun c => Py.is_digit c || Py.is_lower_az c).

Definition VERSION_PATTERN : regex :=
  SeqL [
    Opt (Lit "v");
    (* (?:(?P<epoch>[0-9]+)!)? *)
    Opt (Seq (Group "epoch" digits1) (Lit "!"));
    (* release: [0-9]+(?:\.[0-9]+)* , as one group *)
    Group "release" (Seq digits1 (Star (Seq (Lit ".") digits1)));
    (* (?P<pre>[-_\.]?(?P<pre_l>alpha|a|beta|b|preview|pre|c|rc)[-_\.]?(?P<pre_n>[0-9]+)?)? *)
    Opt (Group "pre"
           (SeqL [sep;
                  Group "pre_l"
                    (AltL [Lit "alpha"; Lit "a"; Lit "beta"; Lit "b";
                           Lit "preview"; Lit "pre"; Lit "c"; Lit "rc"]);
                  sep;
                  Opt (Group "pre_n" digits1)]));
    (* (?P<post>(?:-(?P<post_n1>[0-9]+))
               |(?:[-_\.]?(?P<post_l>post|rev|r)[-_\.]?(?P<post_n2>[0-9]+)?))? *)
    Opt (Group "post"
           (Alt (Seq (Lit "-") (Group "post_n1" digits1))
                (SeqL [sep;
                       Group "post_l" (AltL [Lit "post"; Lit "rev"; Lit "r"]);
                       sep;
                       Opt (Group "post_n2" digits1)])));
    (* (?P<dev>[-_\.]?(?P<dev_l>dev)[-_\.]?(?P<dev_n>[0-9]+)?)? *)
    Opt (Group "dev"
           (SeqL [sep; Group "dev_l" (Lit "dev"); sep;
                  Opt (Group "dev_n" digits1)]));
    (* optional, after a plus sign, local: [a-z0-9]+(?:[-_\.][a-z0-9]+)* *)
    Opt (Seq (Lit "+")
             (Group "local"
                (Seq (Plus alnum) (Star (Seq (OneOf "-_.") (Plus alnum))))))
  ].

Definition _regex : regex :=
  SeqL [Star (Chr Py.is_space); VERSION_PATTERN; Star (Chr Py.is_space); Eos].

(** A part of a local version: a number or a word in lower case. *)
Inductive local_part : Type :=
| LNum (n : Z)
| LStr (s : list ascii).

(** The parsed fields of a [Version]; the library orders versions by a
    key computed from these fields. *)
Record Version : Type := mkVersion {
  epoch : Z;
  release : list Z;
  pre : option (list ascii * Z);
  post : option Z;
  dev : option Z;
  local_ : option (list local_part)
}.

Definition normal_letter (l : list ascii) : list ascii :=
  if Py.list_eqb l (Py.chars "alpha") then Py.chars "a"
  else if Py.list_eqb l (Py.chars "beta") then Py.chars "b"
  else if Py.list_eqb l (Py.chars "c") || Py.list_eqb l (Py.chars "pre")
          || Py.list_eqb l (Py.chars "preview") then Py.chars "rc"
  else if Py.list_eqb l (Py.chars "rev") || Py.list_eqb l (Py.chars "r")
       then Py.chars "post"
  else l.

Definition truthy (o : option (list ascii)) : bool :=
  match o with
  | Some (_ :: _) => true
  | _ => false
  end.

Definition _parse_letter_version (letter number : option (list ascii))
  : option (list ascii * Z) :=
  match letter with
  | Some ((_ :: _) as l) =>
      Some (normal_letter l,
            match number with Some n => Py.int n | None => 0%Z end)
  | _ =>
      match number with
      | Some ((_ :: _) as n) => Some (Py.chars "post", Py.int n)
      | _ => None
      end
  end.

(** [_local_version_separators.split(local)]: the parts between dots,
    underscores and hyphens. *)
Fixpoint split_separators (s : list ascii) : list (list ascii) :=
  match s with
  | [] => [[]]
  | c :: s' =>
      if existsb (Py.ascii_eqb c) (Py.chars "._-")
      then [] :: split_separators s'
      else match split_separators s' with
           | [] => [[c]]
           | w :: ws => (c :: w) :: ws
           end
  end.

(** [part.isdigit()] on the letters and digits of a local version. *)
Definition all_digits (part : list ascii) : bool :=
  match part with
  | [] => false
  | _ :: _ => forallb Py.is_digit part
  end.

Definition _parse_local_version (local : option (list ascii))
  : option (list local_part) :=
  match local with
  | Some l =>
      Some (map (fun part => if all_digits part then LNum (Py.int part)
                             else LStr (Py.lower part))
              (split_separators l))
  | None => None
  end.

(** [int(number)] raises on a group of too many digits. *)
Definition too_long (number : option (list ascii)) : bool :=
  match number with
  | Some n => Py.int_raises n
  | None => false
  end.

(** [parse(version)] raises ValueError: the pattern matches and one of
    the conversions of [Version.__init__] meets a number that is too
    long. *)
Definition raises_ValueError (version : list ascii) : bool :=
  match match_ _regex (Py.lower version) with
  | None => false
  | Some m =>
      too_long (get m "epoch")
      || existsb Py.int_raises
           (Py.split "." match get m "release" with Some t => t | None => [] end)
      || too_long (get m "pre_n")
      || too_long (if truthy (get m "post_n1") then get m "post_n1"
                   else get m "post_n2")
      || too_long (get m "dev_n")
      || match get m "local" with
         | Some l =>
             existsb (fun part => all_digits part && Py.int_raises part)
               (split_separators l)
         | None => false
         end
  end.

(** [parse(version)] when no conversion raises: [None] stands for
    raising [InvalidVersion]. *)
Definition parse (version : list ascii) : option Version :=
  match match_ _regex (Py.lower version) with
  | None => None
  | Some m =>
      Some (mkVersion
              (if truthy (get m "epoch")
               then match get m "epoch" with Some t => Py.int t | None => 0%Z end
               else 0%Z)
              (map Py.int
                 (Py.split "."
                    match get m "release" with Some t => t | None => [] end))
              (_parse_letter_version (get m "pre_l") (get m "pre_n"))
              (option_map snd
                 (_parse_letter_version (get m "post_l")
                    (if truthy (get m "post_n1") then get m "post_n1" else get m "post_n2")))
              (option_map snd (_parse_letter_version (get m "dev_l") (get m "dev_n")))
              (_parse_local_version (get m "local")))
  end.

End Packaging.

(** ** The module's tables and patterns *)

Import Re.

(** [version_re_str] (lines 27-31):
      (?P<major>\d+)(?:\.(?P<minor>\d+))?(?:\.(?P<patch>(?<=\.)[0-9]+))?\.?
      (?:(?P<prerel>[abc]|rc|dev)(?:(?P<prerelversion>\d+(?:\.\d+)* ))?)?
      (?P<postdev>(\.post(?P<post>\d+))?(\.dev(?P<dev>\d+))?)?
    The two unnamed groups inside [postdev] do not show in [groupdict]
    and are plain sequences here. *)
Definition digits : regex := Plus (Chr Py.is_digit).

Definition version_re_str : regex :=
  SeqL [
    Group "major" digits;
    Opt (Seq (Lit ".") (Group "minor" digits));
    Opt (Seq (Lit ".")
             (Group "patch" (Seq (Behind (Py.ascii_eqb ".")) digits)));
    Opt (Lit ".");
    Opt (Seq (Group "prerel" (AltL [OneOf "abc"; Lit "rc"; Lit "dev"]))
             (Opt (Group "prerelversion"
                     (Seq digits (Star (Seq (Lit ".") digits))))));
    Opt (Group "postdev"
           (Seq (Opt (Seq (Lit ".post") (Group "post" digits)))
                (Opt (Seq (Lit ".dev") (Group "dev" digits)))))
  ].

Definition version_re : regex := version_re_str.

Definition PYTHON_IMPLEMENTATIONS : list string :=
  [ "python"; "ironpython"; "jython"; "pypy"; "anaconda"; "miniconda";
    "stackless"; "activepython"; "pyston"; "micropython" ]%string.

(** [KNOWN_EXTS] (lines 47-53).  A Python set; only membership and
    iteration under [any] are used, so a list stands for it. *)
Definition KNOWN_EXTS (e : Env) : list string :=
  (if os_name_nt e
   then [ "exe"; "py"; "bat"; EmptyString ]
   else [ "sh"; "bash"; "csh"; "zsh"; "fish"; "py"; EmptyString ])%string
  ++ map Py.str
       (filter (fun w => negb (Py.list_eqb w []))
          (Py.split (os_pathsep e) (Py.chars (environ_PATHEXT e)))).

(** [PY_MATCH_STR] (lines 54-58):
      ((?P<implementation>python|ironpython|...|micropython)
       (?:\d?(?:\.\d[cpm]{0,3}))?(?:-?[\d\.]+)*(?!w))   *)
Definition cpm : regex := OneOf "cpm".

Definition PY_MATCH_STR : regex :=
  SeqL [
    Group "implementation" (AltL (map Lit PYTHON_IMPLEMENTATIONS));
    Opt (Seq (Opt (Chr Py.is_digit))
             (SeqL [Lit "."; Chr Py.is_digit;
                    Opt (Seq cpm (Opt (Seq cpm (Opt cpm))))]));
    Star (Seq (Opt (Lit "-"))
              (Plus (Chr (fun c => Py.is_digit c || Py.ascii_eqb c "."))));
    NotAhead (Lit "w")
  ].

(** [RE_MATCHER] (line 60): either pattern. *)
Definition RE_MATCHER : regex := Alt version_re_str PY_MATCH_STR.

(** [RULES_BASE] (lines 62-70): each template is the text before and
    after its [{0}] placeholder. *)
Definition RULES_BASE : list (string * string) :=
  [ ("*", EmptyString); ("*", "?"); ("*", "?.?"); ("*", "?.?m");
    (EmptyString, "?-?.?"); (EmptyString, "?-?.?.?"); (EmptyString, "?.?-?.?.?") ]%string.

Definition format (rule : string * string) (impl : string) : string :=
  (fst rule ++ impl ++ snd rule)%string.

Definition RULES : list string :=
  flat_map (fun impl => map (fun rule => format rule impl) RULES_BASE)
    PYTHON_IMPLEMENTATIONS.

Definition with_ext (rule ext : string) : string :=
  if String.eqb ext EmptyString then rule else (rule ++ "." ++ ext)%string.

Definition MATCH_RULES (e : Env) : list string :=
  flat_map (fun rule => map (with_ext rule) (KNOWN_EXTS e)) RULES.

(** [EXE_MATCHER] (lines 59 and 61): at import the members of
    [KNOWN_EXTS] are joined with bars, unescaped, into a pattern that is
    compiled.  No function of the module reads the compiled pattern, but
    a member that is not a well-formed pattern (a lone parenthesis or
    bracket, a leading star) makes the compilation raise, and the module
    is then not imported.  [plain_PATHEXT] is a condition under which
    the compilation succeeds and every rule is made of stars, question
    marks and literal characters: every member of [KNOWN_EXTS] is made of
    ASCII letters, digits, dots, underscores and hyphens. *)
Definition plain_ext_char (c : ascii) : bool :=
  Py.is_digit c || Py.is_upper c || Py.is_lower_az c
  || existsb (Py.ascii_eqb c) (Py.chars "._-").

Definition plain_PATHEXT (e : Env) : bool :=
  forallb (fun ext => forallb plain_ext_char (Py.chars ext)) (KNOWN_EXTS e).

(** ** Version parsing (lines 108-156) *)

Inductive exn : Type := InvalidPythonVersion | InvalidVersion | ValueError.

Inductive result (A : Type) : Type :=
| Ok (a : A)
| Raise (e : exn).

Arguments Ok {A} a.
Arguments Raise {A} e.

Record ParsedVersion : Type := mkParsed {
  major : option Z;
  minor : option Z;
  patch : option Z;
  is_postrelease : bool;
  is_prerelease : bool;
  is_devrelease : bool;
  is_debug : bool;
  version : option Packaging.Version
}.

Definition truthy : option (list ascii) -> bool := Packaging.truthy.

(** [int(d.get(k, 0)) if d.get(k) else None]. *)
Definition int_or_None (v : option (list ascii)) : option Z :=
  match v with
  | Some t => if truthy v then Some (Py.int t) else None
  | None => None
  end.

(** Lines 137-145: the canonical string rebuilt from the groups. *)
Definition canonical (m : state) : list ascii :=
  let pre :=
    if truthy (get m "prerel") && truthy (get m "prerelversion")
    then match get m "prerel", get m "prerelversion" with
         | Some a, Some b => a ++ b
         | _, _ => []
         end
    else [] in
  let values :=
    [ get m "major"; get m "minor"; get m "patch"; Some pre;
      get m "postdev"; get m "post"; get m "dev" ] in
  Py.join (Py.chars ".")
    (flat_map (fun v => match v with
                        | Some t => if truthy v then [t] else []
                        | None => []
                        end) values).

(** Lines 112-115: strip a trailing -debug marker. *)
Definition strip_debug (s : list ascii) : bool * list ascii :=
  if Py.endswith s (Py.chars "-debug")
  then (true, Py.rpartition_head "-" s)
  else (false, s).

(** Lines 116-156, for the stripped string.  The conversions of lines
    120-122 and those of the strict normalizer raise ValueError on a
    number of too many digits, which nothing catches. *)
Definition parse_stripped (is_debug : bool) (version_str : list ascii)
  : result ParsedVersion :=
  match match_ version_re version_str with
  | None => Raise InvalidPythonVersion
  | Some m =>
      if Packaging.too_long (get m "major")
         || Packaging.too_long (get m "minor")
         || Packaging.too_long (get m "patch")
      then Raise ValueError
      else
      let major := int_or_None (get m "major") in
      let minor := int_or_None (get m "minor") in
      let patch := int_or_None (get m "patch") in
      let is_postrelease := truthy (get m "post") in
      let is_prerelease := truthy (get m "prerel") in
      let is_devrelease := truthy (get m "dev") in
      let patch :=
        match patch with
        | Some p => if Z.eqb p 0 then patch else Some p
        | None => patch
        end in
      let finish v :=
        Ok (mkParsed major minor patch is_postrelease is_prerelease
              is_devrelease is_debug (Some v)) in
      if Packaging.raises_ValueError version_str then Raise ValueError
      else
      match Packaging.parse version_str with
      | Some v => finish v
      | None =>
          if Packaging.raises_ValueError (canonical m) then Raise ValueError
          else
          match Packaging.parse (canonical m) with
          | Some v => finish v
          | None => Raise InvalidVersion
          end
      end
  end.

Definition parse_python_version (version_str : string) : result ParsedVersion :=
  let '(is_debug, s) := strip_debug (Py.chars version_str) in
  parse_stripped is_debug s.

(** ** Path predicates (lines 170-229) *)

(** A [pathlib.Path] as the functions see it: [str(path)] and
    [path.name], the final component. *)
Record Path : Type := mkPath {
  path_str : string;
  path_name : string
}.

(** [path.suffix], as [pathlib] computes it from the name: the text from
    the last dot on, unless that dot is first or last in the name. *)
Definition suffix (path : Path) : string :=
  let name := Py.chars (path_name path) in
  match Py.rfind "." name with
  | Some i =>
      if (0 <? i) && (i <? length name - 1) then Py.str (skipn i name)
      else EmptyString
  | None => EmptyString
  end.

Definition str_in (s : string) (l : list string) : bool :=
  existsb (String.eqb s) l.

Definition path_is_executable (fs : FS) (path : Path) : bool :=
  access_X_OK fs (path_str path).

Definition path_is_known_executable (e : Env) (fs : FS) (path : Path) : bool :=
  path_is_executable fs path
  || (access_R_OK fs (path_str path) && str_in (suffix path) (KNOWN_EXTS e)).

(** Line 210: some implementation name starts the lowered name. *)
Definition has_python_prefix (name : list ascii) : bool :=
  existsb (fun py_name => Py.startswith (Py.lower name) (Py.chars py_name))
    PYTHON_IMPLEMENTATIONS.

Definition looks_like_python (e : Env) (name : string) : bool :=
  if negb (has_python_prefix (Py.chars name)) then false
  else
    match match_ RE_MATCHER (Py.chars name) with
    | Some _ =>
        existsb (fun rule => Fnmatch.fnmatch e (Py.chars name) (Py.chars rule))
          (MATCH_RULES e)
    | None => false
    end.

Definition path_is_python (e : Env) (fs : FS) (path : Path) : bool :=
  path_is_executable fs path && looks_like_python e (path_name path).

(** ** Company guessing (lines 232-261) *)

Definition non_core_pythons : list string :=
  filter (fun impl => negb (String.eqb impl "python")) PYTHON_IMPLEMENTATIONS.

Definition guess_company (path : string) : string :=
  match find (fun impl => Py.contains (Py.lower (Py.chars path)) (Py.chars impl))
          non_core_pythons with
  | Some impl => impl
  | None => "PythonCore"
  end.

Definition path_is_pythoncore (path : string) : bool :=
  let company := guess_company path in
  if negb (String.eqb company EmptyString)
  then String.eqb company "PythonCore"
  else false.

(** ** Further string primitives *)

Module PyExt.

(** [c.isdigit()] on the Latin-1 range: the decimal digits and the
    superscript digits 1, 2 and 3. *)
Definition isdigit_char (c : ascii) : bool :=
  Py.is_digit c || (Py.code c =? 178) || (Py.code c =? 179) || (Py.code c =? 185).

(** [s.isdigit()]: at least one character, and only digits. *)
Definition isdigit (s : list ascii) : bool :=
  match s with
  | [] => false
  | _ :: _ => forallb isdigit_char s
  end.

(** [s.count(c)] for one character. *)
Definition count (c : ascii) (s : list ascii) : nat :=
  length (filter (Py.ascii_eqb c) s).

(** [s.split(sep, maxsplit)] for a one-character separator. *)
Fixpoint split_max (sep : ascii) (maxsplit : nat) (s : list ascii) {struct s}
  : list (list ascii) :=
  match s with
  | [] => [[]]
  | c :: s' =>
      match maxsplit with
      | O => [s]
      | S n =>
          if Py.ascii_eqb c sep then [] :: split_max sep n s'
          else match split_max sep maxsplit s' with
               | [] => [[c]]
               | w :: ws => (c :: w) :: ws
               end
      end
  end.

(** Last component of [s.partition(sep)]: the text after the first
    [sep], empty when there is none. *)
Fixpoint partition_tail (sep : ascii) (s : list ascii) : list ascii :=
  match s with
  | [] => []
  | c :: s' => if Py.ascii_eqb c sep then s' else partition_tail sep s'
  end.

(** [s.split()]: the maximal runs of characters that are not white
    space; [cur] is the run being read, reversed. *)
Fixpoint words_from (cur : list ascii) (s : list ascii) : list (list ascii) :=
  match s with
  | [] => match cur with [] => [] | _ :: _ => [rev cur] end
  | c :: s' =>
      if Py.is_space c
      then match cur with
           | [] => words_from [] s'
           | _ :: _ => rev cur :: words_from [] s'
           end
      else words_from (c :: cur) s'
  end.

Definition split_ws (s : list ascii) : list (list ascii) := words_from [] s.

(** The line boundaries of [str.splitlines] on the Latin-1 range. *)
Definition is_linebreak (c : ascii) : bool :=
  Py.in_range 10 13 c || Py.in_range 28 30 c || (Py.code c =? 133).

(** [s.splitlines()]; [after_cr] tells that the last boundary was a
    carriage return, which swallows a line feed that follows it. *)
Fixpoint lines_from (after_cr : bool) (cur : list ascii) (s : list ascii)
  : list (list ascii) :=
  match s with
  | [] => match cur with [] => [] | _ :: _ => [rev cur] end
  | c :: s' =>
      if after_cr && (Py.code c =? 10) then lines_from false [] s'
      else if is_linebreak c
           then rev cur :: lines_from (Py.code c =? 13) [] s'
           else lines_from false (c :: cur) s'
  end.

Definition splitlines (s : list ascii) : list (list ascii) :=
  lines_from false [] s.

End PyExt.

(** ** Other functions of the module (lines 297-377) *)

(** The listing of directories: [path.is_dir()] and [path.iterdir()]. *)
Record Dirs : Type := mkDirs {
  is_dir : Path -> bool;
  iterdir : Path -> list Path
}.

(** What [filter_pythons] returns: for a plain file the path itself or
    None, for a directory the filtered listing. *)
Inductive pythons : Type :=
| Single (p : option Path)
| Several (l : list Path).

(** [filter_pythons] (lines 297-303), for a [Path] argument.  For a
    directory the code returns a filter object, and the memoizing
    decorator hands the same object to every later call with that
    path: it yields its elements once.  [Several l] is what the first
    consumption of that object yields; a second consumption, which
    yields nothing, is not modelled. *)
Definition filter_pythons (e : Env) (fs : FS) (d : Dirs) (path : Path) : pythons :=
  if negb (is_dir d path)
  then Single (if path_is_python e fs path then Some path else None)
  else Several (filter (path_is_python e fs) (iterdir d path)).

(** The objects [unnest] meets: strings, iterables other than strings
    (with the finite sequence of their elements), and everything else. *)
#[warnings="-register-all"]
Inductive item : Type :=
| Obj (n : nat)
| Str (s : string)
| Iter (l : list item).

(** [unnest] (lines 307-321), as the list of what the generator yields.
    A string given at the top is iterated character by character; a
    string met inside an iterable is yielded whole. *)
Fixpoint unnest (it : item) : list item :=
  match it with
  | Obj _ => [it]
  | Str s => map (fun c => Str (String c EmptyString)) (Py.chars s)
  | Iter l =>
      flat_map (fun el => match el with
                          | Iter _ => unnest el
                          | _ => [el]
                          end) l
  end.

(** [parse_pyenv_version_order] (lines 324-331); [contents] is the text
    of the version file, None when no such regular file exists. *)
Definition parse_pyenv_version_order (contents : option string) : list string :=
  match contents with
  | Some text => map Py.str (PyExt.splitlines (Py.chars text))
  | None => []
  end.

(** [parse_asdf_version_order] (lines 334-348), likewise. *)
Definition parse_asdf_version_order (contents : option string) : list string :=
  match contents with
  | Some text =>
      match find (fun line => Py.startswith line (Py.chars "python"))
              (PyExt.splitlines (Py.chars text)) with
      | Some python_section =>
          if negb (Py.list_eqb python_section [])
          then
            let versions := PyExt.partition_tail " " python_section in
            if negb (Py.list_eqb versions [])
            then map Py.str (PyExt.split_ws versions)
            else []
          else []
      | None => []
      end
  | None => []
  end.

(** The arguments of [split_version_and_name]: a string, an integer or
    None. *)
Inductive value : Type :=
| VNone
| VInt (n : Z)
| VStr (s : string).

(** Python truth of such a value. *)
Definition truth (v : value) : bool :=
  match v with
  | VNone => false
  | VInt n => negb (Z.eqb n 0)
  | VStr s => negb (String.eqb s EmptyString)
  end.

(** [s[0]]; None stands for the IndexError of an empty string. *)
Definition index0 (s : string) : option string :=
  match s with
  | String c _ => Some (String c EmptyString)
  | EmptyString => None
  end.

(** The test of line 360: all digits, or a dot somewhere and a digit
    first.  The second operand of [and] is only evaluated on a string
    that holds a dot. *)
Definition version_like (major : string) : bool :=
  PyExt.isdigit (Py.chars major)
  || ((0 <? PyExt.count "." (Py.chars major))
      && match Py.chars major with
         | c :: _ => PyExt.isdigit_char c
         | [] => false
         end).

(** [split_version_and_name] (lines 351-377); None stands for an
    exception escaping: the IndexError of [major[0]], or the ValueError
    of unpacking more than four parts.  The list test of line 362 always
    holds for the result of [split]. *)
Definition split_version_and_name (major minor patch : value) (name : option string)
  : option (value * value * value * option string) :=
  match major with
  | VStr m =>
      if negb (truth minor) && negb (truth patch)
      then
        if version_like m
        then
          match map Py.str (PyExt.split_max "." 2 (Py.chars m)) with
          | [a; b; c; _] => Some (VStr a, VStr b, VStr c, name)
          | _ :: _ :: _ :: _ :: _ :: _ => None
          | [a; b; c] => Some (VStr a, VStr b, VStr c, name)
          | [a; b] => Some (VStr a, VStr b, patch, name)
          | _ =>
              match index0 m with
              | Some c => Some (VStr c, minor, patch, name)
              | None => None
              end
          end
        else Some (VNone, minor, patch, Some m)
      else Some (major, minor, patch, name)
  | _ => Some (major, minor, patch, name)
  end.

(** [is_in_path] (lines 381-382); [normalize_path] is the module's path
    normalization, which only calls into [os.path]. *)
Definition is_in_path (normalize_path : string -> string) (path parent : string)
  : bool :=
  Py.startswith (Py.chars (normalize_path path)) (Py.chars (normalize_path parent)).

(** ** The specification's wording, for comparison with the code *)

(** The extension of a path in the sense of [KNOWN_EXTS], whose members
    are written without a dot: the suffix less its leading dot. *)
Definition spec_extension (path : Path) : string :=
  match suffix path with
  | String "." ext => ext
  | s => s
  end.

(** Executable, or readable with an extension in the known set. *)
Definition spec_path_is_known_executable (e : Env) (fs : FS) (path : Path) : bool :=
  path_is_executable fs path
  || (access_R_OK fs (path_str path) && str_in (spec_extension path) (KNOWN_EXTS e)).

(** A name occurs in a path, ignoring the path's case. *)
Definition occurs_in (impl path : string) : Prop :=
  exists a b, Py.lower (Py.chars path) = a ++ Py.chars impl ++ b.

(** ** Vocabulary of the proofs *)

(** A run consumes a prefix of the remaining input. *)
Definition extends (s s' : state) : Prop :=
  exists w, rest s = w ++ rest s' /\ before s' = rev w ++ before s.

(** Every capture of a list satisfies [Q]. *)
Definition caps_ok (Q : string -> list ascii -> Prop)
  (cs : list (string * list ascii)) : Prop :=
  Forall (fun kv => Q (fst kv) (snd kv)) cs.

(** Every group of [r], wherever it matches, captures a text in [Q]. *)
Fixpoint groups_ok (Q : string -> list ascii -> Prop) (r : regex) : Prop :=
  match r with
  | Seq a b | Alt a b => groups_ok Q a /\ groups_ok Q b
  | Opt a | Star a => groups_ok Q a
  | Group g a =>
      groups_ok Q a /\ forall s s', In s' (run a s) -> Q g (text s s')
  | _ => True
  end.

(** The three numeric groups never capture the empty string. *)
Definition numeric (g : string) (t : list ascii) : Prop :=
  In g ["major"; "minor"; "patch"]%string -> t <> [].

(** No name of the list starts another one. *)
Definition prefix_free (l : list string) : bool :=
  forallb (fun a =>
    forallb (fun b =>
      implb (Py.startswith (Py.chars a) (Py.chars b)) (String.eqb a b)) l) l.

(** A name matches at least one rule of the table. *)
Definition matches_some_rule (e : Env) (name : string) : Prop :=
  exists rule, In rule (MATCH_RULES e) /\
               Fnmatch.fnmatch e (Py.chars name) (Py.chars rule) = true.

(** The string begins with a decimal digit. *)
Definition starts_with_digit (s : list ascii) : bool :=
  match s with
  | c :: _ => Py.is_digit c
  | [] => false
  end.

(** What [unnest] yields: anything but an iterable. *)
Definition atom (it : item) : bool :=
  match it with
  | Iter _ => false
  | _ => true
  end.

(** What an element of an iterable contributes. *)
Definition yield_of (el : item) : list item :=
  match el with
  | Iter _ => unnest el
  | _ => [el]
  end.

(** No white space in a string. *)
Definition no_space (s : list ascii) : bool :=
  forallb (fun c => negb (Py.is_space c)) s.

(** No line boundary in a string. *)
Definition no_linebreak (s : list ascii) : bool :=
  forallb (fun c => negb (PyExt.is_linebreak c)) s.

(** The first state the engine reaches from [s], if any. *)
Definition first (r : regex) (s : state) : option state := hd_error (run r s).

(** The loop of a repetition, with its bound on the iterations. *)
Definition star_loop (f : state -> list state) : nat -> state -> list state :=
  fix loop (n : nat) (s : state) {struct n} : list state :=
    match n with
    | O => [s]
    | S n' =>
        flat_map
          (fun s' => if length (rest s') <? length (rest s) then loop n' s' else [])
          (f s)
        ++ [s]
    end.

(** A number as the interpreter prints it: one decimal digit or more. *)
Definition digit_string (s : list ascii) : Prop :=
  s <> [] /\ forallb Py.is_digit s = true.

(** The same outcome with the is_debug flag set. *)
Definition set_debug (o : result ParsedVersion) : result ParsedVersion :=
  match o with
  | Ok r => Ok (mkParsed (major r) (minor r) (patch r) (is_postrelease r)
                  (is_prerelease r) (is_devrelease r) true (version r))
  | Raise e => Raise e
  end.

(** A number that [int] converts: no more digits than the limit. *)
Definition within_limit (s : list ascii) : Prop :=
  length s <= Py.int_max_str_digits.

(** One to three numbers joined by dots. *)
Definition dotted (a : list ascii) (more : list (list ascii)) : list ascii :=
  Py.join (Py.chars ".") (a :: more).

(** What follows the first number of a dotted version. *)
Definition dot_tail (more : list (list ascii)) : list ascii :=
  flat_map (fun p => "."%char :: p) more.

(** A decimal digit or a dot. *)
Definition dot_or_digit (c : ascii) : bool :=
  Py.is_digit c || Py.ascii_eqb "." c.

(** Every decimal digit replaced by 0. *)
Definition canon_digit (c : ascii) : ascii :=
  if Py.is_digit c then "0"%char else c.

(** No decimal digit in a string. *)
Definition no_digit (s : list ascii) : bool :=
  forallb (fun c => negb (Py.is_digit c)) s.

(** The search of [*] in a shell pattern: [k] at some suffix. *)
Definition star_match (k : list ascii -> bool) : list ascii -> bool :=
  fix star (name : list ascii) : bool :=
    k name ||
    match name with
    | [] => false
    | _ :: name' => star name'
    end.

(** The digits a string starts with, and what follows them. *)
Fixpoint leading_digits (s : list ascii) : list ascii :=
  match s with
  | c :: s' => if Py.is_digit c then c :: leading_digits s' else []
  | [] => []
  end.

Fixpoint after_digits (s : list ascii) : list ascii :=
  match s with
  | c :: s' => if Py.is_digit c then after_digits s' else s
  | [] => []
  end.

(** Only the major group may hold [w]; nothing is asked of the others. *)
Definition major_is (w : list ascii) (g : string) (t : list ascii) : Prop :=
  g = "major"%string -> t = w.

(** The pre-release tags written without separator, with the letter
    the strict normalizer gives them. *)
Definition prerelease_tags : list (string * string) :=
  [ ("a", "a"); ("b", "b"); ("c", "rc"); ("rc", "rc") ]%string.

(** A character that is not an exclamation mark. *)
Definition no_bang (c : ascii) : bool := negb (Py.ascii_eqb "!" c).

(** A character that [str.lower] leaves alone. *)
Definition lower_fixed (c : ascii) : bool := Py.ascii_eqb (Py.lower_char c) c.

(** A character at which the version grammar reads nothing more: no
    digit, no dot, and none of the letters that start a pre-release
    tag. *)
Definition stops_grammar (x : ascii) : bool :=
  negb (Py.is_digit x)
  && negb (existsb (Py.ascii_eqb x) ["."; "a"; "b"; "c"; "r"; "d"]%char).

(** * Facts about the string primitives *)

Module PyFacts.

Lemma chars_app a b : Py.chars (a ++ b) = Py.chars a ++ Py.chars b.
Proof. induction a; simpl; congruence. Qed.

Lemma str_chars s : Py.str (Py.chars s) = s.
Proof. apply string_of_list_ascii_of_string. Qed.

Lemma chars_inj a b : Py.chars a = Py.chars b -> a = b.
Proof. intros H. rewrite <- (str_chars a), <- (str_chars b). now rewrite H. Qed.

Lemma ascii_eqb_eq c d : Py.ascii_eqb c d = true <-> c = d.
Proof. apply Ascii.eqb_eq. Qed.

Lemma startswith_nil s : Py.startswith s [] = true.
Proof. now destruct s. Qed.

Lemma startswith_app p s : Py.startswith (p ++ s) p = true.
Proof.
  induction p as [|c p IH]; simpl; [now destruct s|].
  unfold Py.ascii_eqb. now rewrite Ascii.eqb_refl, IH.
Qed.

Lemma startswith_inv p : forall s,
  Py.startswith s p = true -> exists r, s = p ++ r.
Proof.
  induction p as [|c p IH]; intros s H.
  - exists s. reflexivity.
  - destruct s as [|d s]; simpl in H; [discriminate|].
    apply andb_true_iff in H as [E H]. apply ascii_eqb_eq in E. subst d.
    destruct (IH _ H) as [r ->]. now exists r.
Qed.

Lemma startswith_iff s p : Py.startswith s p = true <-> exists r, s = p ++ r.
Proof.
  split; [apply startswith_inv|]. intros [r ->]. apply startswith_app.
Qed.

Lemma endswith_app s p : Py.endswith (s ++ p) p = true.
Proof. unfold Py.endswith. rewrite rev_app_distr. apply startswith_app. Qed.

Lemma contains_iff sub : forall s,
  Py.contains s sub = true <-> exists a b, s = a ++ sub ++ b.
Proof.
  induction s as [|c s IH].
  - change (Py.contains [] sub) with (Py.startswith [] sub || false).
    rewrite orb_false_r, startswith_iff. split.
    + intros [r E]. now exists [], r.
    + intros [a [b E]]. destruct a; [now exists b|discriminate].
  - change (Py.contains (c :: s) sub)
      with (Py.startswith (c :: s) sub || Py.contains s sub).
    rewrite orb_true_iff, startswith_iff, IH. split.
    + intros [[r E]|[a [b E]]].
      * now exists [], r.
      * exists (c :: a), b. now rewrite E.
    + intros [a [b E]]. destruct a as [|d a].
      * left. now exists b.
      * right. injection E as _ E. now exists a, b.
Qed.

(** Of two prefixes of one string, one is a prefix of the other. *)
Lemma prefixes_nest (a : list ascii) : forall b x y,
  a ++ x = b ++ y -> Py.startswith a b = true \/ Py.startswith b a = true.
Proof.
  induction a as [|c a IH]; intros b x y E.
  - right. now destruct b.
  - destruct b as [|d b]; [now left|].
    injection E as -> E. simpl. unfold Py.ascii_eqb. rewrite Ascii.eqb_refl.
    simpl. eauto.
Qed.

Lemma lower_app a b : Py.lower (a ++ b) = Py.lower a ++ Py.lower b.
Proof. apply map_app. Qed.

End PyFacts.

(** * Facts about the matcher *)

Module ReFacts.

Lemma extends_refl s : extends s s.
Proof. exists []. split; reflexivity. Qed.

Lemma extends_trans s1 s2 s3 : extends s1 s2 -> extends s2 s3 -> extends s1 s3.
Proof.
  intros [w1 [R1 B1]] [w2 [R2 B2]]. exists (w1 ++ w2). split.
  - rewrite R1, R2. now rewrite app_assoc.
  - rewrite B2, B1, rev_app_distr. now rewrite app_assoc.
Qed.

Lemma step_extends p s s' : In s' (step p s) -> extends s s'.
Proof.
  unfold step. destruct (rest s) as [|c t] eqn:E; [intros []|].
  destruct (p c); [|intros []]. intros [<-|[]].
  exists [c]. split; simpl; auto.
Qed.

Lemma step_inv p s s' :
  In s' (step p s) ->
  exists c, p c = true /\ rest s = c :: rest s' /\
            before s' = c :: before s /\ caps s' = caps s.
Proof.
  unfold step. destruct (rest s) as [|c t] eqn:E; [intros []|].
  destruct (p c) eqn:P; [|intros []]. intros [<-|[]].
  exists c. simpl. auto.
Qed.

Lemma run_extends r : forall s s', In s' (run r s) -> extends s s'.
Proof.
  induction r as [|p|a IHa b IHb|a IHa b IHb|a IHa|a IHa|g a IHa|a IHa|p|];
    intros s s' H; simpl in H.
  - destruct H as [<-|[]]. apply extends_refl.
  - eapply step_extends; eauto.
  - apply in_flat_map in H as [s1 [H1 H2]].
    eapply extends_trans; eauto.
  - apply in_app_or in H as [H|H]; eauto.
  - apply in_app_or in H as [H|[<-|[]]]; eauto using extends_refl.
  - remember (length (rest s)) as n eqn:En. clear En.
    revert s s' H. induction n as [|n IHn]; intros s s' H.
    + destruct H as [<-|[]]. apply extends_refl.
    + apply in_app_or in H as [H|[<-|[]]]; [|apply extends_refl].
      apply in_flat_map in H as [s1 [H1 H2]].
      destruct (length (rest s1) <? length (rest s)); [|destruct H2].
      eapply extends_trans; [apply IHa; eauto|apply IHn; auto].
  - apply in_map_iff in H as [s1 [<- H1]].
    destruct (IHa _ _ H1) as [w [R B]]. exists w. simpl. auto.
  - destruct (run a s); [|destruct H]. destruct H as [<-|[]].
    apply extends_refl.
  - destruct (before s) as [|c t]; [destruct H|].
    destruct (p c); [|destruct H]. destruct H as [<-|[]]. apply extends_refl.
  - destruct (rest s); [|destruct H]. destruct H as [<-|[]]. apply extends_refl.
Qed.

Lemma text_extends s s' w :
  rest s = w ++ rest s' -> before s' = rev w ++ before s -> text s s' = w.
Proof.
  intros _ B. unfold text. rewrite B, length_app, length_rev.
  replace (length w + length (before s) - length (before s)) with (length (rev w))
    by (rewrite length_rev; lia).
  rewrite firstn_app, firstn_all, Nat.sub_diag. simpl.
  now rewrite app_nil_r, rev_involutive.
Qed.

(** A literal matches exactly itself. *)
Lemma run_LitL l : forall s s', In s' (run (LitL l) s) -> rest s = l ++ rest s'.
Proof.
  induction l as [|c l IH]; intros s s' H; simpl in H.
  - destruct H as [<-|[]]. reflexivity.
  - apply in_flat_map in H as [s1 [H1 H2]].
    apply step_inv in H1 as [d [P [R _]]].
    unfold Py.ascii_eqb in P. apply Ascii.eqb_eq in P. subst d.
    rewrite R, (IH _ _ H2). reflexivity.
Qed.

(** One or more characters of a class: the text is not empty. *)
Lemma run_Plus_text p s s' :
  In s' (run (Plus (Chr p)) s) -> text s s' <> [].
Proof.
  intros H. destruct (run_extends _ _ _ H) as [w [R B]].
  rewrite (text_extends _ _ _ R B).
  unfold Plus in H. change (In s' (flat_map (run (Star (Chr p))) (step p s))) in H.
  apply in_flat_map in H as [s1 [H1 H2]].
  apply step_inv in H1 as [c [_ [R1 _]]].
  destruct (run_extends _ _ _ H2) as [w2 [R2 _]].
  intros ->. simpl in R. rewrite R1, R2 in R.
  apply (f_equal (@length ascii)) in R. simpl in R. rewrite length_app in R. lia.
Qed.

(** ** Capture invariants *)

Section Captures.

Variable Q : string -> list ascii -> Prop.

Lemma run_caps_ok r :
  groups_ok Q r ->
  forall s s', In s' (run r s) -> caps_ok Q (caps s) -> caps_ok Q (caps s').
Proof.
  induction r as [|p|a IHa b IHb|a IHa b IHb|a IHa|a IHa|g a IHa|a IHa|p|];
    intros G s s' H C; simpl in H, G.
  - destruct H as [<-|[]]; auto.
  - apply step_inv in H as [c [_ [_ [_ E]]]]. now rewrite E.
  - destruct G as [Ga Gb]. apply in_flat_map in H as [s1 [H1 H2]]. eauto.
  - destruct G as [Ga Gb]. apply in_app_or in H as [H|H]; eauto.
  - apply in_app_or in H as [H|[<-|[]]]; eauto.
  - remember (length (rest s)) as n eqn:En. clear En.
    revert s s' H C. induction n as [|n IHn]; intros s s' H C.
    + destruct H as [<-|[]]; auto.
    + apply in_app_or in H as [H|[<-|[]]]; auto.
      apply in_flat_map in H as [s1 [H1 H2]].
      destruct (length (rest s1) <? length (rest s)); [|destruct H2].
      eapply IHn; eauto.
  - destruct G as [Ga Gg]. apply in_map_iff in H as [s1 [<- H1]].
    simpl. constructor; simpl; eauto.
    unfold caps_ok in *. eauto.
  - destruct (run a s); [|destruct H]. destruct H as [<-|[]]; auto.
  - destruct (before s) as [|c t]; [destruct H|].
    destruct (p c); [|destruct H]. destruct H as [<-|[]]; auto.
  - destruct (rest s); [|destruct H]. destruct H as [<-|[]]; auto.
Qed.

Lemma group_caps_ok cs g t : caps_ok Q cs -> group cs g = Some t -> Q g t.
Proof.
  induction cs as [|[k v] cs IH]; simpl; intros C H; [discriminate|].
  inversion C as [|? ? Hk Hcs]; subst. simpl in Hk.
  destruct (String.eqb k g) eqn:E.
  - apply String.eqb_eq in E. subst. now inversion H; subst.
  - auto.
Qed.

End Captures.

Lemma match_In r s m : match_ r s = Some m -> In m (run r (init s)).
Proof.
  unfold match_. destruct (run r (init s)); simpl; [discriminate|].
  intros [= ->]. now left.
Qed.

(** Captures are only ever added, in front of the earlier ones. *)
Lemma run_caps_grow r :
  forall s s', In s' (run r s) -> exists new, caps s' = new ++ caps s.
Proof.
  induction r as [|p|a IHa b IHb|a IHa b IHb|a IHa|a IHa|g a IHa|a IHa|p|];
    intros s s' H; simpl in H;
    try (destruct H as [<-|[]]; now exists []).
  - apply step_inv in H as [c [_ [_ [_ E]]]]. now exists [].
  - apply in_flat_map in H as [s1 [H1 H2]].
    destruct (IHa _ _ H1) as [n1 E1]. destruct (IHb _ _ H2) as [n2 E2].
    exists (n2 ++ n1). now rewrite E2, E1, app_assoc.
  - apply in_app_or in H as [H|H]; eauto.
  - apply in_app_or in H as [H|[<-|[]]]; eauto. now exists [].
  - remember (length (rest s)) as n eqn:En. clear En.
    revert s s' H. induction n as [|n IHn]; intros s s' H.
    + destruct H as [<-|[]]. now exists [].
    + apply in_app_or in H as [H|[<-|[]]]; [|now exists []].
      apply in_flat_map in H as [s1 [H1 H2]].
      destruct (length (rest s1) <? length (rest s)); [|destruct H2].
      destruct (IHa _ _ H1) as [n1 E1]. destruct (IHn _ _ H2) as [n2 E2].
      exists (n2 ++ n1). now rewrite E2, E1, app_assoc.
  - apply in_map_iff in H as [s1 [<- H1]].
    destruct (IHa _ _ H1) as [n1 E1]. simpl.
    exists ((g, text s s1) :: n1). now rewrite E1.
  - destruct (run a s); [|destruct H]. destruct H as [<-|[]]. now exists [].
  - destruct (before s) as [|c t]; [destruct H|].
    destruct (p c); [|destruct H]. destruct H as [<-|[]]. now exists [].
  - destruct (rest s); [|destruct H]. destruct H as [<-|[]]. now exists [].
Qed.

Lemma group_app_some new cs g t :
  group cs g = Some t -> exists t', group (new ++ cs) g = Some t'.
Proof.
  intros H. induction new as [|[k v] new IH]; simpl; eauto.
  destruct (String.eqb k g); eauto.
Qed.

Lemma run_Behind p s s' : In s' (run (Behind p) s) -> s' = s.
Proof.
  simpl. destruct (before s) as [|c t]; [intros []|].
  destruct (p c); [|intros []]. now intros [<-|[]].
Qed.

End ReFacts.

(** * Version parsing *)

Module VersionFacts.

Import PyFacts ReFacts.


Lemma numeric_digits g s s' : In s' (run digits s) -> numeric g (text s s').
Proof. intros H _. now apply run_Plus_text in H. Qed.

Lemma numeric_other g t :
  (if str_in g ["major"; "minor"; "patch"]%string then false else true) = true ->
  numeric g t.
Proof.
  unfold str_in, numeric. simpl. intros H [E|[E|[E|[]]]]; subst g; discriminate.
Qed.

Lemma version_re_groups_ok : groups_ok numeric version_re.
Proof.
  unfold version_re, version_re_str. cbn [groups_ok SeqL].
  repeat match goal with |- _ /\ _ => split end;
    try (simpl; tauto);
    try (intros s s' H; now apply numeric_digits);
    try (intros s s' _; now apply numeric_other).
  intros s s' H. change (In s' (flat_map (run digits) (run (Behind (Py.ascii_eqb ".")) s))) in H.
  apply in_flat_map in H as [s1 [H1 H2]].
  apply run_Behind in H1. subst s1. now apply numeric_digits.
Qed.

(** A numeric group that took part in the match holds at least one digit. *)
Lemma version_re_numeric s m g t :
  match_ version_re s = Some m ->
  In g ["major"; "minor"; "patch"]%string ->
  get m g = Some t -> t <> [].
Proof.
  intros M G E. apply match_In in M.
  assert (C : caps_ok numeric (caps m)).
  { eapply run_caps_ok; [apply version_re_groups_ok|exact M|constructor]. }
  exact (group_caps_ok numeric _ _ _ C E G).
Qed.

(** The major group takes part in every match. *)
Lemma version_re_major s m :
  match_ version_re s = Some m -> exists t, get m "major" = Some t.
Proof.
  intros M. apply match_In in M.
  unfold version_re, version_re_str in M. cbn [SeqL] in M.
  change (run (Seq ?a ?b) ?s) with (flat_map (run b) (run a s)) in M.
  apply in_flat_map in M as [s1 [H1 H2]].
  change (run (Group ?g ?a) ?s) with (map (capture g s) (run a s)) in H1.
  apply in_map_iff in H1 as [s0 [<- _]].
  apply run_caps_grow in H2 as [new E].
  unfold get. rewrite E. eapply group_app_some. simpl. reflexivity.
Qed.

Lemma int_or_None_some t : t <> [] -> int_or_None (Some t) = Some (Py.int t).
Proof. destruct t; [congruence|reflexivity]. Qed.

(** What [parse_stripped] returns, when it returns. *)
Lemma parse_stripped_Ok d s r :
  parse_stripped d s = Ok r ->
  exists m v,
    match_ version_re s = Some m /\
    major r = int_or_None (get m "major") /\
    minor r = int_or_None (get m "minor") /\
    patch r = int_or_None (get m "patch") /\
    is_debug r = d /\
    version r = Some v.
Proof.
  unfold parse_stripped. destruct (match_ version_re s) as [m|]; [|discriminate].
  assert (P : forall o : option Z,
             match o with
             | Some p => if Z.eqb p 0 then o else Some p
             | None => o
             end = o).
  { intros [p|]; auto. now destruct (Z.eqb p 0). }
  rewrite P.
  destruct (Packaging.too_long (get m "major") || Packaging.too_long (get m "minor")
            || Packaging.too_long (get m "patch")); [discriminate|].
  destruct (Packaging.raises_ValueError s); [discriminate|].
  destruct (Packaging.parse s) as [v|].
  - intros [= <-]. exists m, v. simpl. auto 10.
  - destruct (Packaging.raises_ValueError (canonical m)); [discriminate|].
    destruct (Packaging.parse (canonical m)) as [v|]; [|discriminate].
    intros [= <-]. exists m, v. simpl. auto 10.
Qed.

(** Every field of the record [parse_stripped] returns. *)
Lemma parse_stripped_fields d s r :
  parse_stripped d s = Ok r ->
  exists m,
    match_ version_re s = Some m /\
    major r = int_or_None (get m "major") /\
    minor r = int_or_None (get m "minor") /\
    patch r = int_or_None (get m "patch") /\
    is_postrelease r = truthy (get m "post") /\
    is_prerelease r = truthy (get m "prerel") /\
    is_devrelease r = truthy (get m "dev") /\
    is_debug r = d /\
    version r = match Packaging.parse s with
                | Some v => Some v
                | None => Packaging.parse (canonical m)
                end.
Proof.
  unfold parse_stripped. destruct (match_ version_re s) as [m|]; [|discriminate].
  assert (P : forall o : option Z,
             match o with
             | Some p => if Z.eqb p 0 then o else Some p
             | None => o
             end = o).
  { intros [p|]; auto. now destruct (Z.eqb p 0). }
  rewrite P.
  destruct (Packaging.too_long (get m "major") || Packaging.too_long (get m "minor")
            || Packaging.too_long (get m "patch")); [discriminate|].
  destruct (Packaging.raises_ValueError s); [discriminate|].
  destruct (Packaging.parse s) as [v|].
  - intros [= <-]. exists m. simpl. repeat split.
  - destruct (Packaging.raises_ValueError (canonical m)); [discriminate|].
    destruct (Packaging.parse (canonical m)) as [v|] eqn:Ec; [|discriminate].
    intros [= <-]. exists m. simpl. rewrite Ec. repeat split.
Qed.

(** A numeric group is converted when it took part in the match. *)
Lemma int_or_None_group s m g :
  match_ version_re s = Some m ->
  In g ["major"; "minor"; "patch"]%string ->
  int_or_None (get m g) = option_map Py.int (get m g).
Proof.
  intros M G. destruct (get m g) as [t|] eqn:E; [|reflexivity].
  apply int_or_None_some. exact (version_re_numeric s m g t M G E).
Qed.

(** The flag is the only thing the marker changes. *)
Lemma parse_stripped_set_debug d s :
  parse_stripped true s = set_debug (parse_stripped d s).
Proof.
  unfold parse_stripped. destruct (match_ version_re s) as [m|]; [|reflexivity].
  destruct (Packaging.too_long (get m "major") || Packaging.too_long (get m "minor")
            || Packaging.too_long (get m "patch")); [reflexivity|].
  destruct (Packaging.raises_ValueError s); [reflexivity|].
  destruct (Packaging.parse s) as [v|]; [reflexivity|].
  destruct (Packaging.raises_ValueError (canonical m)); [reflexivity|].
  now destruct (Packaging.parse (canonical m)).
Qed.

(** ** Stripping the debug marker *)

Lemma rfind_debug x :
  Py.rfind "-" (x ++ Py.chars "-debug") = Some (length x).
Proof.
  induction x as [|c x IH]; [reflexivity|].
  simpl. simpl in IH. now rewrite IH.
Qed.

Lemma strip_debug_app x :
  strip_debug (x ++ Py.chars "-debug") = (true, x).
Proof.
  unfold strip_debug. rewrite endswith_app.
  unfold Py.rpartition_head. rewrite rfind_debug.
  now rewrite firstn_app, firstn_all, Nat.sub_diag, app_nil_r.
Qed.

End VersionFacts.

(** * Name matching *)

Module NameFacts.

Import PyFacts ReFacts.

Lemma run_Seq a b s : run (Seq a b) s = flat_map (run b) (run a s).
Proof. reflexivity. Qed.

Lemma run_Alt a b s : run (Alt a b) s = run a s ++ run b s.
Proof. reflexivity. Qed.

Lemma run_Group g a s : run (Group g a) s = map (capture g s) (run a s).
Proof. reflexivity. Qed.

Lemma run_Opt_self a s : In s (run (Opt a) s).
Proof. simpl. apply in_or_app. right. now left. Qed.

Lemma run_Star_self a s : In s (run (Star a) s).
Proof.
  simpl. destruct (length (rest s)); [now left|].
  apply in_or_app. right. now left.
Qed.

Lemma hd_error_In {A} (x : A) l : In x l -> hd_error l <> None.
Proof. destruct l; [intros []|discriminate]. Qed.

(** An alternation of literals matches one of them. *)
Lemma run_AltL_Lit l : forall s s',
  In s' (run (AltL (map Lit l)) s) ->
  exists x, In x l /\ rest s = Py.chars x ++ rest s'.
Proof.
  induction l as [|x l IH]; intros s s' H.
  - destruct H.
  - destruct l as [|y l].
    + exists x. split; [now left|]. now apply run_LitL.
    + change (AltL (map Lit (x :: y :: l)))
        with (Alt (Lit x) (AltL (map Lit (y :: l)))) in H.
      rewrite run_Alt in H. apply in_app_or in H as [H|H].
      * exists x. split; [now left|]. now apply run_LitL.
      * destruct (IH _ _ H) as [z [Hz E]]. exists z. split; [now right|auto].
Qed.

(** What the name grammar accepts starts with a digit or with an
    implementation name, spelled as in the table. *)
Lemma RE_MATCHER_start n m :
  In m (run RE_MATCHER (init n)) ->
  (exists c t, n = c :: t /\ Py.is_digit c = true) \/
  (exists impl r, In impl PYTHON_IMPLEMENTATIONS /\ n = Py.chars impl ++ r).
Proof.
  unfold RE_MATCHER. rewrite run_Alt. intros H.
  apply in_app_or in H as [H|H].
  - left. unfold version_re_str in H. cbn [SeqL] in H.
    rewrite run_Seq in H. apply in_flat_map in H as [s1 [H _]].
    rewrite run_Group in H. apply in_map_iff in H as [s0 [_ H]].
    unfold digits, Plus in H. rewrite run_Seq in H.
    apply in_flat_map in H as [s2 [H _]].
    apply step_inv in H as [c [P [R _]]]. simpl in R. eauto.
  - right. unfold PY_MATCH_STR in H. cbn [SeqL] in H.
    rewrite run_Seq in H. apply in_flat_map in H as [s1 [H _]].
    rewrite run_Group in H. apply in_map_iff in H as [s0 [_ H]].
    apply run_AltL_Lit in H as [x [Hx E]]. simpl in E. eauto.
Qed.

(** The grammar rejects an implementation name directly followed by w. *)
Lemma RE_MATCHER_w impl r :
  In impl PYTHON_IMPLEMENTATIONS ->
  match_ RE_MATCHER (Py.chars impl ++ "w"%char :: r) = None.
Proof.
  intros H. simpl in H.
  repeat (destruct H as [<-|H]; [vm_compute; reflexivity|]). destruct H.
Qed.

(** The grammar accepts an implementation name followed by anything else. *)
Lemma RE_MATCHER_accepts impl r :
  In impl PYTHON_IMPLEMENTATIONS ->
  Py.startswith r (Py.chars "w") = false ->
  match_ RE_MATCHER (Py.chars impl ++ r) <> None.
Proof.
  intros H W.
  assert (G : exists s1,
             In s1 (run (Group "implementation"
                           (AltL (map Lit PYTHON_IMPLEMENTATIONS)))
                      (init (Py.chars impl ++ r))) /\ rest s1 = r).
  { simpl in H.
    repeat (destruct H as [<-|H];
            [eexists; split; [vm_compute; left; reflexivity|reflexivity]|]).
    destruct H. }
  destruct G as [s1 [G R]].
  apply hd_error_In with (x := s1).
  unfold RE_MATCHER. rewrite run_Alt. apply in_or_app. right.
  unfold PY_MATCH_STR. cbn [SeqL]. rewrite run_Seq.
  apply in_flat_map. exists s1. split; [exact G|].
  rewrite run_Seq. apply in_flat_map. exists s1. split; [apply run_Opt_self|].
  rewrite run_Seq. apply in_flat_map. exists s1. split; [apply run_Star_self|].
  simpl. unfold step. rewrite R.
  destruct r as [|c r']; [now left|].
  simpl in W. rewrite startswith_nil, andb_true_r in W. rewrite W. now left.
Qed.

(** Facts about the table, by enumeration. *)
Lemma implementations_lower impl :
  In impl PYTHON_IMPLEMENTATIONS -> Py.lower (Py.chars impl) = Py.chars impl.
Proof.
  intros H. simpl in H.
  repeat (destruct H as [<-|H]; [reflexivity|]). destruct H.
Qed.

Lemma implementations_no_upper impl :
  In impl PYTHON_IMPLEMENTATIONS -> existsb Py.is_upper (Py.chars impl) = false.
Proof.
  intros H. simpl in H.
  repeat (destruct H as [<-|H]; [reflexivity|]). destruct H.
Qed.

Lemma implementations_letter impl :
  In impl PYTHON_IMPLEMENTATIONS ->
  exists c t, Py.chars impl = c :: t /\ Py.is_digit c = false.
Proof.
  intros H. simpl in H.
  repeat (destruct H as [<-|H]; [eexists; eexists; split; reflexivity|]).
  destruct H.
Qed.

Lemma implementations_prefix_free a b :
  In a PYTHON_IMPLEMENTATIONS -> In b PYTHON_IMPLEMENTATIONS ->
  Py.startswith (Py.chars a) (Py.chars b) = true -> a = b.
Proof.
  intros Ha Hb S.
  assert (P : prefix_free PYTHON_IMPLEMENTATIONS = true) by (vm_compute; reflexivity).
  unfold prefix_free in P. rewrite forallb_forall in P.
  specialize (P a Ha). rewrite forallb_forall in P. specialize (P b Hb).
  rewrite S in P. simpl in P. now apply String.eqb_eq.
Qed.

Lemma lower_digit c : Py.is_digit c = true -> Py.lower_char c = c.
Proof.
  destruct c as [[|] [|] [|] [|] [|] [|] [|] [|]];
    vm_compute; intros H; try reflexivity; discriminate.
Qed.

Lemma has_python_prefix_iff n :
  has_python_prefix n = true <->
  exists impl r, In impl PYTHON_IMPLEMENTATIONS /\
                 Py.lower n = Py.chars impl ++ r.
Proof.
  unfold has_python_prefix. rewrite existsb_exists. split.
  - intros [impl [H S]]. apply startswith_iff in S as [r E]. eauto.
  - intros [impl [r [H E]]]. exists impl. split; [exact H|].
    rewrite E. apply startswith_app.
Qed.

(** When the lowered name starts with [impl], the grammar can only have
    matched the name if the name itself starts with [impl]. *)
Lemma RE_MATCHER_exact impl n x m :
  In impl PYTHON_IMPLEMENTATIONS ->
  Py.lower n = Py.chars impl ++ x ->
  match_ RE_MATCHER n = Some m ->
  exists r, n = Py.chars impl ++ r.
Proof.
  intros H L M. apply match_In in M.
  apply RE_MATCHER_start in M as [[c [t [-> D]]]|[impl' [r [H' ->]]]].
  - exfalso. destruct (implementations_letter _ H) as [c' [t' [E D']]].
    rewrite E in L. simpl in L. injection L as L _.
    rewrite (lower_digit _ D) in L. congruence.
  - exists r. rewrite lower_app, (implementations_lower _ H') in L.
    destruct (prefixes_nest _ _ _ _ L) as [S|S].
    + now rewrite (implementations_prefix_free _ _ H' H S).
    + now rewrite (implementations_prefix_free _ _ H H' S).
Qed.

End NameFacts.

(** * Properties of the module *)

Import PyFacts ReFacts VersionFacts NameFacts.

(** ** Known executables *)

Lemma rfind_skipn c : forall s i,
  Py.rfind c s = Some i -> exists t, skipn i s = c :: t.
Proof.
  induction s as [|d s IH]; intros i H; simpl in H; [discriminate|].
  destruct (Py.rfind c s) as [j|] eqn:E.
  - injection H as <-. simpl. eauto.
  - destruct (Py.ascii_eqb d c) eqn:D; [|discriminate].
    injection H as <-. apply ascii_eqb_eq in D. subst. simpl. eauto.
Qed.

(** A suffix is empty or starts with its dot. *)
Lemma suffix_dot path :
  suffix path = EmptyString \/ exists t, suffix path = String "." t.
Proof.
  unfold suffix. destruct (Py.rfind "." (Py.chars (path_name path))) as [i|] eqn:E; auto.
  destruct ((0 <? i) && (i <? length (Py.chars (path_name path)) - 1)); auto.
  right. destruct (rfind_skipn _ _ _ E) as [t ->]. now exists (Py.str t).
Qed.

(** With [PATHEXT] unset no member of [KNOWN_EXTS] starts with a dot, so
    a file that is not executable is known only when it has no suffix. *)
Lemma path_is_known_executable_default e fs path :
  environ_PATHEXT e = EmptyString ->
  path_is_executable fs path = false ->
  suffix path <> EmptyString ->
  path_is_known_executable e fs path = false.
Proof.
  intros P X S. unfold path_is_known_executable. rewrite X. simpl.
  destruct (suffix_dot path) as [E|[t E]]; [contradiction|].
  rewrite E. unfold KNOWN_EXTS. rewrite P.
  destruct (os_name_nt e); simpl; apply andb_false_r.
Qed.

(** C1 (the code departs from the claim): [path_is_known_executable] is
    claimed true exactly when the path is executable, or readable with an
    extension in the known set.  The code tests [path.suffix], which keeps
    its leading dot, against a set whose members have none: for a file
    run.sh that is readable and not executable, whose extension sh is in
    the set, the code answers false where the claim gives true. *)
Theorem path_is_known_executable_dotted_suffix :
  let fs := mkFS (fun _ => false) (fun _ => true) in
  let path := mkPath "/opt/tools/run.sh" "run.sh" in
  path_is_executable fs path = false /\
  access_R_OK fs (path_str path) = true /\
  suffix path = ".sh"%string /\
  spec_extension path = "sh"%string /\
  str_in "sh" (KNOWN_EXTS posix) = true /\
  path_is_known_executable posix fs path = false /\
  spec_path_is_known_executable posix fs path = true.
Proof. vm_compute. repeat split. Qed.

(** ** Version parsing *)

(** The typed error is raised exactly when the grammar does not match. *)
Lemma parse_stripped_InvalidPythonVersion d s :
  parse_stripped d s = Raise InvalidPythonVersion <->
  match_ version_re s = None.
Proof.
  unfold parse_stripped. destruct (match_ version_re s) as [m|].
  - split; [|discriminate].
    destruct (Packaging.too_long (get m "major") || Packaging.too_long (get m "minor")
              || Packaging.too_long (get m "patch")); [discriminate|].
    destruct (Packaging.raises_ValueError s); [discriminate|].
    destruct (Packaging.parse s); [discriminate|].
    destruct (Packaging.raises_ValueError (canonical m)); [discriminate|].
    destruct (Packaging.parse (canonical m)); discriminate.
  - split; reflexivity.
Qed.

(** C2 (the code departs from the claim): every input that matches the
    version grammar is claimed to return normally, the rebuilt canonical
    string being always accepted by the strict normalizer.  For
    3.9.0rc1.post1-amd64 the grammar matches and strict parsing fails; the
    code joins the groups postdev and post with dots, rebuilds
    3.9.0.rc1..post1.1, which the normalizer rejects, and its
    [InvalidVersion] escapes.  The same happens with a dotted pre-release
    number (3.9rc1.2) and with a doubled dot (1..post1). *)
Theorem parse_python_version_fallback_escapes :
  let raw := "3.9.0rc1.post1-amd64"%string in
  (exists m, match_ version_re (Py.chars raw) = Some m /\
             Packaging.parse (Py.chars raw) = None /\
             Py.str (canonical m) = "3.9.0.rc1..post1.1"%string /\
             Packaging.parse (canonical m) = None) /\
  parse_python_version raw = Raise InvalidVersion /\
  parse_python_version "3.9rc1.2" = Raise InvalidVersion /\
  parse_python_version "1..post1" = Raise InvalidVersion.
Proof.
  cbv zeta. split; [|split; [|split]]; try (vm_compute; reflexivity).
  eexists. split; [vm_compute; reflexivity|].
  split; [|split]; vm_compute; reflexivity.
Qed.

(** C4: whenever [parse_python_version] returns, the version field holds
    a version value (it is not None) and major is an integer (not None),
    the grammar requiring a leading number. *)
Theorem parse_python_version_version_major raw r :
  parse_python_version raw = Ok r ->
  (exists v, version r = Some v) /\ (exists n, major r = Some n).
Proof.
  unfold parse_python_version.
  destruct (strip_debug (Py.chars raw)) as [d s]. intros H.
  apply parse_stripped_Ok in H as [m [v [M [Mj [_ [_ [_ V]]]]]]].
  split; [now exists v|].
  destruct (version_re_major _ _ M) as [t T].
  assert (N : t <> []).
  { apply (version_re_numeric _ _ "major"%string _ M); [now left|exact T]. }
  exists (Py.int t). now rewrite Mj, T, int_or_None_some.
Qed.

Lemma parse_python_version_version_major_witness :
  exists r, parse_python_version "3.9.1" = Ok r /\
            (exists v, version r = Some v) /\ major r = Some 3%Z.
Proof.
  eexists. split; [vm_compute; reflexivity|].
  split; [|vm_compute; reflexivity].
  apply (parse_python_version_version_major "3.9.1"). vm_compute. reflexivity.
Defined.

(** C9: for an accepted input, a numeric group (minor, patch) that is
    absent from the grammar match gives the field None, not 0, and each
    of major, minor and patch whose group is present is returned as the
    integer the group spells. *)
Theorem parse_python_version_numeric_groups raw r m :
  parse_python_version raw = Ok r ->
  match_ version_re (snd (strip_debug (Py.chars raw))) = Some m ->
  (get m "minor" = None -> minor r = None) /\
  (get m "patch" = None -> patch r = None) /\
  (forall t, get m "major" = Some t -> major r = Some (Py.int t)) /\
  (forall t, get m "minor" = Some t -> minor r = Some (Py.int t)) /\
  (forall t, get m "patch" = Some t -> patch r = Some (Py.int t)).
Proof.
  unfold parse_python_version.
  destruct (strip_debug (Py.chars raw)) as [d s]. simpl. intros H M.
  apply parse_stripped_Ok in H as [m' [v [M' [Mj [Mi [Pa _]]]]]].
  rewrite M in M'. injection M' as <-.
  rewrite Mj, Mi, Pa.
  assert (N : forall g t, In g ["major"; "minor"; "patch"]%string ->
                          get m g = Some t ->
                          int_or_None (get m g) = Some (Py.int t)).
  { intros g t G E. rewrite E. apply int_or_None_some.
    exact (version_re_numeric _ _ _ _ M G E). }
  repeat split.
  - now intros ->.
  - now intros ->.
  - intros t. apply N. simpl. tauto.
  - intros t. apply N. simpl. tauto.
  - intros t. apply N. simpl. tauto.
Qed.

Lemma parse_python_version_numeric_groups_witness :
  exists r, parse_python_version "3.10" = Ok r /\
            major r = Some 3%Z /\ minor r = Some 10%Z /\ patch r = None.
Proof.
  assert (M : exists m, match_ version_re (snd (strip_debug (Py.chars "3.10")))
                        = Some m /\
                        get m "major" = Some (Py.chars "3") /\
                        get m "minor" = Some (Py.chars "10") /\
                        get m "patch" = None).
  { eexists. split; [vm_compute; reflexivity|].
    split; [|split]; vm_compute; reflexivity. }
  destruct M as [m [M [Gj [Gi Gp]]]].
  eexists. split; [vm_compute; reflexivity|].
  match goal with
  | |- major ?r = _ /\ _ =>
      assert (P : parse_python_version "3.10" = Ok r) by (vm_compute; reflexivity);
      destruct (parse_python_version_numeric_groups "3.10" r m P M)
        as [_ [Hp [Hj [Hi _]]]]
  end.
  split; [exact (Hj _ Gj)|]. split; [exact (Hi _ Gi)|exact (Hp Gp)].
Defined.

(** ** Name matching *)

Lemma matches_some_rule_iff e name :
  matches_some_rule e name <->
  existsb (fun rule => Fnmatch.fnmatch e (Py.chars name) (Py.chars rule))
    (MATCH_RULES e) = true.
Proof. unfold matches_some_rule. now rewrite existsb_exists. Qed.

Lemma length_chars s : length (Py.chars s) = String.length s.
Proof. induction s; simpl; congruence. Qed.

(** C3 as stated fails: pythonw starts with the name python and matches
    the rule *python? of the POSIX table, yet it does not look like
    python, the grammar refusing a name followed by w. *)
Lemma looks_like_python_rule_match_not_enough :
  ~ (forall e name,
       has_python_prefix (Py.chars name) = true ->
       matches_some_rule e name ->
       looks_like_python e name = true).
Proof.
  intros H. specialize (H posix "pythonw"%string).
  assert (F : looks_like_python posix "pythonw" = false) by (vm_compute; reflexivity).
  rewrite H in F; [discriminate|vm_compute; reflexivity|].
  exists "*python?"%string. split; vm_compute; [tauto|reflexivity].
Qed.

(** C3 (amended): every name that starts with a recognized
    implementation name, spelled in lower case and not directly followed
    by w, and that matches at least one rule of the table looks like
    python; every name that starts, in any case, with no recognized
    implementation name does not, whatever its extension. *)
Theorem looks_like_python_rules e name :
  (forall impl tail,
      In impl PYTHON_IMPLEMENTATIONS ->
      name = (impl ++ tail)%string ->
      Py.startswith (Py.chars tail) (Py.chars "w") = false ->
      matches_some_rule e name ->
      looks_like_python e name = true) /\
  (has_python_prefix (Py.chars name) = false ->
   looks_like_python e name = false).
Proof.
  split.
  - intros impl tail H -> W R. unfold looks_like_python.
    assert (P : has_python_prefix (Py.chars (impl ++ tail)) = true).
    { apply has_python_prefix_iff. exists impl, (Py.lower (Py.chars tail)).
      split; [exact H|].
      now rewrite chars_app, lower_app, (implementations_lower _ H). }
    rewrite P. simpl.
    pose proof (RE_MATCHER_accepts impl (Py.chars tail) H W) as M.
    rewrite <- chars_app in M.
    destruct (match_ RE_MATCHER (Py.chars (impl ++ tail))); [|congruence].
    now apply matches_some_rule_iff.
  - intros P. unfold looks_like_python. now rewrite P.
Qed.

Lemma looks_like_python_rules_witness :
  looks_like_python posix "python3.9" = true /\
  looks_like_python posix "3.9.exe" = false.
Proof.
  split.
  - apply (proj1 (looks_like_python_rules posix "python3.9") "python"%string "3.9"%string).
    + left. reflexivity.
    + reflexivity.
    + vm_compute. reflexivity.
    + exists "*python?.?"%string. split; vm_compute; [tauto|reflexivity].
  - apply (proj2 (looks_like_python_rules posix "3.9.exe")).
    vm_compute. reflexivity.
Defined.

(** C5: pythonw.exe does not look like python; more generally the name
    grammar rejects, and [looks_like_python] refuses, every name in which
    an implementation name is directly followed by w. *)
Theorem looks_like_python_w_excluded e :
  looks_like_python e "pythonw.exe" = false /\
  forall impl tail,
    In impl PYTHON_IMPLEMENTATIONS ->
    match_ RE_MATCHER (Py.chars (impl ++ "w" ++ tail)) = None /\
    looks_like_python e (impl ++ "w" ++ tail) = false.
Proof.
  assert (G : forall impl tail,
             In impl PYTHON_IMPLEMENTATIONS ->
             match_ RE_MATCHER (Py.chars (impl ++ "w" ++ tail)) = None /\
             looks_like_python e (impl ++ "w" ++ tail) = false).
  { intros impl tail H.
    assert (M : match_ RE_MATCHER (Py.chars (impl ++ "w" ++ tail)) = None).
    { rewrite chars_app. now apply RE_MATCHER_w. }
    split; [exact M|]. unfold looks_like_python. rewrite M.
    now destruct (has_python_prefix _). }
  split; [|exact G].
  apply (G "python" ".exe")%string. now left.
Qed.

Lemma looks_like_python_w_excluded_witness :
  looks_like_python (windows ".COM;.EXE;.BAT") "pypyw.exe" = false.
Proof.
  apply (proj2 (looks_like_python_w_excluded (windows ".COM;.EXE;.BAT"))
           "pypy" ".exe")%string.
  right. right. right. left. reflexivity.
Defined.

(** C10: the prefix filter lowers the name but the grammar spells the
    implementation names in lower case only, so a name whose leading
    implementation-name portion holds an upper-case letter (Python3.9)
    never looks like python. *)
Theorem looks_like_python_case_sensitive e impl name :
  In impl PYTHON_IMPLEMENTATIONS ->
  Py.lower (firstn (String.length impl) (Py.chars name)) = Py.chars impl ->
  existsb Py.is_upper (firstn (String.length impl) (Py.chars name)) = true ->
  looks_like_python e name = false.
Proof.
  intros H L U. unfold looks_like_python.
  destruct (has_python_prefix (Py.chars name)); [simpl|reflexivity].
  destruct (match_ RE_MATCHER (Py.chars name)) as [m|] eqn:M; [exfalso|reflexivity].
  assert (L' : Py.lower (Py.chars name)
               = Py.chars impl ++ Py.lower (skipn (String.length impl) (Py.chars name))).
  { rewrite <- L, <- lower_app. now rewrite firstn_skipn. }
  destruct (RE_MATCHER_exact _ _ _ _ H L' M) as [r E].
  rewrite E, <- length_chars, firstn_app, firstn_all, Nat.sub_diag in U.
  simpl in U. rewrite app_nil_r, (implementations_no_upper _ H) in U.
  discriminate.
Qed.

Lemma looks_like_python_case_sensitive_witness :
  looks_like_python posix "Python3.9" = false /\
  has_python_prefix (Py.chars "Python3.9") = true.
Proof.
  split; [|vm_compute; reflexivity].
  apply (looks_like_python_case_sensitive posix "python" "Python3.9").
  - left. reflexivity.
  - vm_compute. reflexivity.
  - vm_compute. reflexivity.
Defined.

(** ** Company guessing *)

Lemma occurs_in_iff impl path :
  occurs_in impl path <->
  Py.contains (Py.lower (Py.chars path)) (Py.chars impl) = true.
Proof. unfold occurs_in. now rewrite contains_iff. Qed.

Lemma find_first {A} (f : A -> bool) pre x post :
  (forall j, In j pre -> f j = false) -> f x = true ->
  find f (pre ++ x :: post) = Some x.
Proof.
  intros N T. induction pre as [|j pre IH]; simpl.
  - now rewrite T.
  - rewrite (N j) by now left. apply IH. intros k K. apply N. now right.
Qed.

Lemma find_none {A} (f : A -> bool) l :
  (forall j, In j l -> f j = false) -> find f l = None.
Proof.
  induction l as [|j l IH]; simpl; intros N; [reflexivity|].
  rewrite (N j) by now left. apply IH. intros k K. apply N. now right.
Qed.

Lemma not_occurs_in impl path :
  ~ occurs_in impl path ->
  Py.contains (Py.lower (Py.chars path)) (Py.chars impl) = false.
Proof.
  intros N. destruct (Py.contains _ _) eqn:E; [|reflexivity].
  exfalso. now apply N, occurs_in_iff.
Qed.

(** C6: [guess_company] returns the first name of the table, python
    left out (so in the order ironpython, jython, pypy, anaconda,
    miniconda, stackless, activepython, pyston, micropython), that occurs
    in the path with its case ignored, and PythonCore when none occurs;
    /usr/bin/pypy3 gives pypy and /usr/bin/python3.9 gives PythonCore. *)
Theorem guess_company_first_match path :
  non_core_pythons
  = [ "ironpython"; "jython"; "pypy"; "anaconda"; "miniconda"; "stackless";
      "activepython"; "pyston"; "micropython" ]%string /\
  (forall pre impl post,
      non_core_pythons = pre ++ impl :: post ->
      occurs_in impl path ->
      (forall j, In j pre -> ~ occurs_in j path) ->
      guess_company path = impl) /\
  ((forall j, In j non_core_pythons -> ~ occurs_in j path) ->
   guess_company path = "PythonCore"%string) /\
  guess_company "/usr/bin/pypy3" = "pypy"%string /\
  guess_company "/usr/bin/python3.9" = "PythonCore"%string.
Proof.
  split; [reflexivity|]. split; [|split; [|split; vm_compute; reflexivity]].
  - intros pre impl post E O N. unfold guess_company. rewrite E.
    rewrite find_first; [reflexivity| |now apply occurs_in_iff].
    intros j J. now apply not_occurs_in, N.
  - intros N. unfold guess_company.
    rewrite find_none; [reflexivity|].
    intros j J. now apply not_occurs_in, N.
Qed.

Lemma guess_company_first_match_witness :
  guess_company "C:\Jython\PyPy\bin\pypy3.exe" = "jython"%string.
Proof.
  apply (proj1 (proj2 (guess_company_first_match "C:\Jython\PyPy\bin\pypy3.exe"))
           ["ironpython"%string] "jython"%string
           ["pypy"; "anaconda"; "miniconda"; "stackless"; "activepython";
            "pyston"; "micropython"]%string).
  - reflexivity.
  - apply occurs_in_iff. vm_compute. reflexivity.
  - intros j [<-|[]] O. apply occurs_in_iff in O. vm_compute in O. discriminate.
Defined.

(** C7: [path_is_pythoncore] is true exactly when [guess_company]
    answers PythonCore. *)
Theorem path_is_pythoncore_iff path :
  path_is_pythoncore path = true <-> guess_company path = "PythonCore"%string.
Proof.
  unfold path_is_pythoncore.
  destruct (String.eqb (guess_company path) EmptyString) eqn:E; simpl.
  - apply String.eqb_eq in E. rewrite E. split; discriminate.
  - apply String.eqb_eq.
Qed.

(** * Further properties of the module *)

Module MoreNameFacts.

Lemma chars_str l : Py.chars (Py.str l) = l.
Proof. apply list_ascii_of_string_of_list_ascii. Qed.

Lemma append_nil_r (s : string) : (s ++ EmptyString)%string = s.
Proof. induction s; simpl; congruence. Qed.

Lemma In_empty_KNOWN_EXTS e : In EmptyString (KNOWN_EXTS e).
Proof.
  unfold KNOWN_EXTS. apply in_or_app. left.
  destruct (os_name_nt e); simpl; tauto.
Qed.

(** A rule without extension belongs to the table of every host. *)
Lemma In_MATCH_RULES e rule : In rule RULES -> In rule (MATCH_RULES e).
Proof.
  intros H. unfold MATCH_RULES. apply in_flat_map. exists rule. split; [exact H|].
  apply in_map_iff. exists EmptyString. split; [reflexivity|apply In_empty_KNOWN_EXTS].
Qed.

Lemma looks_like_python_true e name :
  looks_like_python e name = true <->
  has_python_prefix (Py.chars name) = true /\
  match_ RE_MATCHER (Py.chars name) <> None /\
  matches_some_rule e name.
Proof.
  unfold looks_like_python. rewrite matches_some_rule_iff.
  destruct (has_python_prefix (Py.chars name)); simpl.
  - destruct (match_ RE_MATCHER (Py.chars name)).
    + split; [intros H; repeat split; [discriminate|exact H]|tauto].
    + split; [discriminate|]. intros [_ [H _]]. congruence.
  - split; [discriminate|]. intros [H _]. discriminate.
Qed.

(** What looks like python starts with a table name, not followed by w,
    and matches a rule. *)
Lemma looks_like_python_sound e name :
  looks_like_python e name = true ->
  (exists impl tail,
      In impl PYTHON_IMPLEMENTATIONS /\ name = (impl ++ tail)%string /\
      Py.startswith (Py.chars tail) (Py.chars "w") = false) /\
  matches_some_rule e name.
Proof.
  rewrite looks_like_python_true.
  intros [P [M R]]. split; [|exact R].
  apply has_python_prefix_iff in P as [impl [x [H L]]].
  destruct (match_ RE_MATCHER (Py.chars name)) as [m|] eqn:E; [|congruence].
  destruct (RE_MATCHER_exact _ _ _ _ H L E) as [r N].
  exists impl, (Py.str r). split; [exact H|]. split.
  - apply chars_inj. now rewrite chars_app, chars_str.
  - rewrite chars_str. destruct r as [|c r]; [reflexivity|].
    simpl. rewrite startswith_nil, andb_true_r.
    destruct (Py.ascii_eqb "w" c) eqn:W; [|reflexivity].
    apply ascii_eqb_eq in W. subst c.
    rewrite N, (RE_MATCHER_w impl r H) in E. discriminate.
Qed.

(** And every such name looks like python. *)
Lemma looks_like_python_complete e impl tail :
  In impl PYTHON_IMPLEMENTATIONS ->
  Py.startswith (Py.chars tail) (Py.chars "w") = false ->
  matches_some_rule e (impl ++ tail) ->
  looks_like_python e (impl ++ tail) = true.
Proof.
  intros H W R. apply looks_like_python_true. repeat split; [| |exact R].
  - apply has_python_prefix_iff. exists impl, (Py.lower (Py.chars tail)).
    split; [exact H|].
    now rewrite chars_app, lower_app, (implementations_lower _ H).
  - rewrite chars_app. now apply RE_MATCHER_accepts.
Qed.

End MoreNameFacts.

Import MoreNameFacts.

(** X1: [looks_like_python] holds exactly for the names that start with
    an implementation name of the table, in lower case and not directly
    followed by w, and that match a rule of the table. *)
Theorem looks_like_python_iff e name :
  looks_like_python e name = true <->
  (exists impl tail,
      In impl PYTHON_IMPLEMENTATIONS /\ name = (impl ++ tail)%string /\
      Py.startswith (Py.chars tail) (Py.chars "w") = false) /\
  matches_some_rule e name.
Proof.
  split.
  - apply looks_like_python_sound.
  - intros [[impl [tail [H [-> W]]]] R]. now apply looks_like_python_complete.
Qed.

(** X2: on every host whose PATHEXT holds plain extensions (letters,
    digits, dots, underscores and hyphens between the separators, so
    that the module is imported), an implementation
    name alone looks like python, and so does the name followed by any
    one character other than w (python3, pypy3, but also python_). *)
Theorem looks_like_python_short_names e impl :
  plain_PATHEXT e = true ->
  In impl PYTHON_IMPLEMENTATIONS ->
  looks_like_python e impl = true /\
  forall d, d <> "w"%char ->
            looks_like_python e (impl ++ String d EmptyString) = true.
Proof.
  intros _ H. split.
  - rewrite <- (append_nil_r impl) at 1.
    apply looks_like_python_complete; [exact H|reflexivity|].
    rewrite append_nil_r.
    exists ("*" ++ impl)%string. split.
      * apply In_MATCH_RULES. simpl in H.
        repeat (destruct H as [<-|H]; [vm_compute; tauto|]). destruct H.
      * unfold Fnmatch.fnmatch, Fnmatch.normcase. simpl in H.
        destruct (os_name_nt e);
          repeat (destruct H as [<-|H]; [vm_compute; reflexivity|]); destruct H.
  - intros d D. apply looks_like_python_complete; [exact H| |].
    + simpl. rewrite andb_true_r.
      destruct (Py.ascii_eqb "w" d) eqn:W; [|reflexivity].
      apply ascii_eqb_eq in W. congruence.
    + exists ("*" ++ impl ++ "?")%string. split.
      * apply In_MATCH_RULES. simpl in H.
        repeat (destruct H as [<-|H]; [vm_compute; tauto|]). destruct H.
      * unfold Fnmatch.fnmatch, Fnmatch.normcase. simpl in H.
        destruct (os_name_nt e);
          repeat (destruct H as [<-|H]; [vm_compute; reflexivity|]); destruct H.
Qed.

Lemma looks_like_python_short_names_witness :
  looks_like_python (windows ".COM;.EXE") "pypy3" = true.
Proof.
  apply (proj2 (looks_like_python_short_names (windows ".COM;.EXE") "pypy"
                  ltac:(vm_compute; reflexivity)
                  ltac:(right; right; right; left; reflexivity)) "3"%char).
  discriminate.
Defined.

Module MoreVersionFacts.

(** The version grammar only asks for one leading digit. *)
Lemma version_re_needs_digit s m :
  In m (run version_re (init s)) -> starts_with_digit s = true.
Proof.
  unfold version_re, version_re_str. cbn [SeqL]. intros H.
  rewrite run_Seq in H. apply in_flat_map in H as [s1 [H _]].
  rewrite run_Group in H. apply in_map_iff in H as [s0 [_ H]].
  unfold digits, Plus in H. rewrite run_Seq in H.
  apply in_flat_map in H as [s2 [H _]].
  apply step_inv in H as [c [P [R _]]]. simpl in R. now rewrite R.
Qed.

Lemma version_re_accepts_digit s :
  starts_with_digit s = true -> match_ version_re s <> None.
Proof.
  destruct s as [|c t]; [discriminate|]. cbn [starts_with_digit]. intros D.
  set (s0 := init (c :: t)). set (s1 := mkState [c] t []).
  apply hd_error_In with (x := capture "major" s0 s1).
  unfold version_re, version_re_str. cbn [SeqL].
  rewrite run_Seq. apply in_flat_map. exists (capture "major" s0 s1). split.
  - rewrite run_Group. apply in_map. unfold digits, Plus. rewrite run_Seq.
    apply in_flat_map. exists s1. split; [|apply run_Star_self].
    unfold s0, s1, init. cbn [run]. unfold step. cbn [rest before caps].
    rewrite D. now left.
  - repeat (rewrite run_Seq; apply in_flat_map; eexists;
            split; [apply run_Opt_self|]).
    apply run_Opt_self.
Qed.

Lemma version_re_match_iff s :
  match_ version_re s = None <-> starts_with_digit s = false.
Proof.
  split.
  - intros M. destruct (starts_with_digit s) eqn:D; [|reflexivity].
    now apply version_re_accepts_digit in D.
  - intros D. destruct (match_ version_re s) as [m|] eqn:M; [|reflexivity].
    apply match_In, version_re_needs_digit in M. congruence.
Qed.

Lemma strip_debug_flag s : fst (strip_debug s) = Py.endswith s (Py.chars "-debug").
Proof. unfold strip_debug. now destruct (Py.endswith s (Py.chars "-debug")). Qed.

End MoreVersionFacts.

Import MoreVersionFacts.

(** X3: [parse_python_version] raises InvalidPythonVersion exactly when
    its argument, once a trailing -debug is cut off, does not begin with
    a decimal digit: the grammar is matched at the start of the string
    only and everything after the first digit is optional. *)
Theorem parse_python_version_InvalidPythonVersion raw :
  parse_python_version raw = Raise InvalidPythonVersion <->
  starts_with_digit (snd (strip_debug (Py.chars raw))) = false.
Proof.
  unfold parse_python_version.
  destruct (strip_debug (Py.chars raw)) as [d s]. simpl.
  now rewrite parse_stripped_InvalidPythonVersion, version_re_match_iff.
Qed.

(** X4: in every record [parse_python_version] returns, is_debug tells
    whether the argument ended in -debug. *)
Theorem parse_python_version_is_debug raw r :
  parse_python_version raw = Ok r ->
  is_debug r = Py.endswith (Py.chars raw) (Py.chars "-debug").
Proof.
  unfold parse_python_version. rewrite <- strip_debug_flag.
  destruct (strip_debug (Py.chars raw)) as [d s]. simpl. intros H.
  now apply parse_stripped_Ok in H as [m [v [_ [_ [_ [_ [D _]]]]]]].
Qed.

Lemma parse_python_version_is_debug_witness :
  exists r, parse_python_version "3.11.4" = Ok r /\ is_debug r = false.
Proof.
  eexists. split; [vm_compute; reflexivity|].
  match goal with
  | |- is_debug ?r = _ =>
      exact (parse_python_version_is_debug "3.11.4" r
               ltac:(vm_compute; reflexivity))
  end.
Defined.

(** ** Company guessing and known executables *)

Module MoreCompanyFacts.

Lemma lower_char_idem c : Py.lower_char (Py.lower_char c) = Py.lower_char c.
Proof.
  destruct c as [[|] [|] [|] [|] [|] [|] [|] [|]]; vm_compute; reflexivity.
Qed.

Lemma lower_idem s : Py.lower (Py.lower s) = Py.lower s.
Proof.
  unfold Py.lower. rewrite map_map. apply map_ext. intros c. apply lower_char_idem.
Qed.

Lemma non_core_not_PythonCore impl :
  In impl non_core_pythons ->
  String.eqb impl EmptyString = false /\ String.eqb impl "PythonCore" = false.
Proof.
  intros H. vm_compute in H.
  repeat (destruct H as [<-|H]; [split; reflexivity|]). destruct H.
Qed.

(** The guess is a name of the table that occurs in the path, when
    there is one. *)
Lemma guess_company_find path :
  match find (fun impl => Py.contains (Py.lower (Py.chars path)) (Py.chars impl))
          non_core_pythons with
  | Some impl => guess_company path = impl /\ In impl non_core_pythons /\
                 occurs_in impl path
  | None => guess_company path = "PythonCore"%string /\
            forall impl, In impl non_core_pythons -> ~ occurs_in impl path
  end.
Proof.
  unfold guess_company.
  destruct (find _ non_core_pythons) as [impl|] eqn:F.
  - apply find_some in F as [I C]. repeat split; [exact I|].
    now apply occurs_in_iff.
  - split; [reflexivity|]. intros impl I O. apply occurs_in_iff in O.
    now rewrite (List.find_none _ _ F impl I) in O.
Qed.

End MoreCompanyFacts.

Import MoreCompanyFacts.

(** X5: [guess_company] answers PythonCore only when no name of the
    table other than python occurs in the path (case ignored); any
    other answer is such a name and does occur in the path. *)
Theorem guess_company_sound path :
  (guess_company path = "PythonCore"%string /\
   forall impl, In impl non_core_pythons -> ~ occurs_in impl path) \/
  (In (guess_company path) non_core_pythons /\
   occurs_in (guess_company path) path).
Proof.
  pose proof (guess_company_find path) as G.
  destruct (find _ non_core_pythons) as [impl|].
  - right. destruct G as [-> [I O]]. now split.
  - left. exact G.
Qed.

(** X6: the guess does not depend on the case of the path. *)
Theorem guess_company_ignores_case path :
  guess_company (Py.str (Py.lower (Py.chars path))) = guess_company path /\
  path_is_pythoncore (Py.str (Py.lower (Py.chars path))) = path_is_pythoncore path.
Proof.
  assert (E : guess_company (Py.str (Py.lower (Py.chars path)))
              = guess_company path).
  { unfold guess_company. now rewrite chars_str, lower_idem. }
  split; [exact E|]. unfold path_is_pythoncore. now rewrite E.
Qed.

(** X7: a path is never PythonCore when a name of the table other than
    python occurs anywhere in it, be it in a directory name and
    whatever its case. *)
Theorem path_is_pythoncore_occurrence impl path :
  In impl non_core_pythons ->
  occurs_in impl path ->
  path_is_pythoncore path = false /\ In (guess_company path) non_core_pythons.
Proof.
  intros I O. pose proof (guess_company_find path) as G.
  destruct (find _ non_core_pythons) as [x|].
  - destruct G as [E [Ix _]]. split; [|now rewrite E].
    unfold path_is_pythoncore. rewrite E.
    destruct (non_core_not_PythonCore x Ix) as [-> ->]. reflexivity.
  - destruct G as [_ N]. now destruct (N impl I).
Qed.

Lemma path_is_pythoncore_occurrence_witness :
  path_is_pythoncore "/home/Jython_fan/.venv/bin/python3" = false.
Proof.
  apply (path_is_pythoncore_occurrence "jython" "/home/Jython_fan/.venv/bin/python3").
  - right. left. reflexivity.
  - apply occurs_in_iff. vm_compute. reflexivity.
Defined.

(** X8: with PATHEXT unset, a path is a known executable exactly when
    it is executable, or readable and without suffix: none of the
    extensions of the default set is ever recognized. *)
Theorem path_is_known_executable_unset_PATHEXT e fs path :
  environ_PATHEXT e = EmptyString ->
  path_is_known_executable e fs path
  = path_is_executable fs path
    || (access_R_OK fs (path_str path) && String.eqb (suffix path) EmptyString).
Proof.
  intros P. unfold path_is_known_executable. f_equal. f_equal.
  unfold KNOWN_EXTS. rewrite P.
  destruct (suffix_dot path) as [->|[t ->]];
    destruct (os_name_nt e); reflexivity.
Qed.

Lemma path_is_known_executable_unset_PATHEXT_witness :
  path_is_known_executable posix (mkFS (fun _ => false) (fun _ => true))
    (mkPath "/usr/bin/tool.py" "tool.py") = false.
Proof.
  rewrite (path_is_known_executable_unset_PATHEXT posix); reflexivity.
Defined.

(** ** Splitting a version from a name *)

Module SplitFacts.

Lemma str_app a b : Py.str (a ++ b) = (Py.str a ++ Py.str b)%string.
Proof. induction a; simpl; congruence. Qed.

Lemma count_cons c d s :
  PyExt.count c (d :: s)
  = (if Py.ascii_eqb c d then 1 else 0) + PyExt.count c s.
Proof. unfold PyExt.count. simpl. now destruct (Py.ascii_eqb c d). Qed.

Lemma ascii_eqb_sym c d : Py.ascii_eqb c d = Py.ascii_eqb d c.
Proof. apply Ascii.eqb_sym. Qed.

Lemma split_max_0 sep s : PyExt.split_max sep 0 s = [s].
Proof. now destruct s. Qed.

(** Without separator there is nothing to split. *)
Lemma split_max_none sep n : forall s,
  PyExt.count sep s = 0 -> PyExt.split_max sep n s = [s].
Proof.
  induction s as [|c s IH]; intros C; [reflexivity|].
  rewrite count_cons in C. simpl. destruct n; [reflexivity|].
  rewrite ascii_eqb_sym. destruct (Py.ascii_eqb sep c); [discriminate|].
  now rewrite IH.
Qed.

(** With one, the text before the first separator is split off. *)
Lemma split_max_first sep : forall s,
  0 < PyExt.count sep s ->
  exists a r, s = a ++ sep :: r /\ PyExt.count sep a = 0 /\
              forall n, PyExt.split_max sep (S n) s = a :: PyExt.split_max sep n r.
Proof.
  induction s as [|c s IH]; intros C; [inversion C|].
  rewrite count_cons in C.
  destruct (Py.ascii_eqb sep c) eqn:E.
  - apply ascii_eqb_eq in E. subst c. exists [], s.
    repeat split. intros n. simpl.
    unfold Py.ascii_eqb. now rewrite Ascii.eqb_refl.
  - destruct (IH C) as [a [r [-> [Ca S']]]]. exists (c :: a), r.
    split; [reflexivity|]. split; [rewrite count_cons, E; exact Ca|].
    intros n. simpl. rewrite ascii_eqb_sym, E.
    change (PyExt.split_max sep (S n) (a ++ sep :: r)) with
      (PyExt.split_max sep (S n) (a ++ sep :: r)).
    now rewrite S'.
Qed.

(** The shapes [major.split(".", 2)] can take. *)
Lemma split_max_2 s :
  (PyExt.count "." s = 0 /\ PyExt.split_max "." 2 s = [s]) \/
  (exists a b, s = a ++ "."%char :: b /\ PyExt.count "." a = 0 /\
               PyExt.count "." b = 0 /\ PyExt.split_max "." 2 s = [a; b]) \/
  (exists a b c, s = a ++ "."%char :: b ++ "."%char :: c /\
                 PyExt.count "." a = 0 /\ PyExt.count "." b = 0 /\
                 PyExt.split_max "." 2 s = [a; b; c]).
Proof.
  destruct (PyExt.count "." s) eqn:C.
  - left. split; [reflexivity|]. now apply split_max_none.
  - right. destruct (split_max_first "." s) as [a [r [-> [Ca S1]]]]; [lia|].
    rewrite S1. destruct (PyExt.count "." r) eqn:Cr.
    + left. exists a, r. repeat split; auto. now rewrite split_max_none.
    + right. destruct (split_max_first "." r) as [b [c [-> [Cb S2]]]]; [lia|].
      exists a, b, c. repeat split; auto. now rewrite S2, split_max_0.
Qed.

Lemma isdigit_no_dot s : PyExt.isdigit s = true -> PyExt.count "." s = 0.
Proof.
  intros H. assert (F : forallb PyExt.isdigit_char s = true) by now destruct s.
  clear H. induction s as [|c s IH]; [reflexivity|].
  simpl in F. apply andb_true_iff in F as [D F]. rewrite count_cons, (IH F).
  destruct (Py.ascii_eqb "." c) eqn:E; [|reflexivity].
  apply ascii_eqb_eq in E. subst c. discriminate.
Qed.

End SplitFacts.

Import SplitFacts.

(** X9: [split_version_and_name] never raises and always returns its
    four values: [major[0]] is only reached with a string that is not
    empty, and the split never gives more than three parts. *)
Theorem split_version_and_name_total major minor patch name :
  exists major' minor' patch' name',
    split_version_and_name major minor patch name
    = Some (major', minor', patch', name').
Proof.
  unfold split_version_and_name. destruct major as [|n|m]; eauto.
  destruct (negb (truth minor) && negb (truth patch)); eauto.
  destruct (version_like m) eqn:V; eauto.
  destruct (split_max_2 (Py.chars m))
    as [[C ->]|[[a [b [_ [_ [_ ->]]]]]|[a [b [c [_ [_ [_ ->]]]]]]]];
    simpl; eauto.
  unfold version_like in V. rewrite C in V. simpl in V.
  rewrite orb_false_r in V. destruct m; [discriminate|]. simpl. eauto.
Qed.

(** X10: for a string major that holds a dot and starts with a digit,
    minor and patch being unset, the parts returned are the text before
    the first dot, the text up to the second one and, if there is a
    second dot, all that follows it; joined with dots again they give
    the argument back, and the name is left as it was. *)
Theorem split_version_and_name_dotted m minor patch name :
  truth minor = false -> truth patch = false ->
  version_like m = true -> 0 < PyExt.count "." (Py.chars m) ->
  exists a b p,
    split_version_and_name (VStr m) minor patch name
    = Some (VStr a, VStr b, p, name) /\
    PyExt.count "." (Py.chars a) = 0 /\ PyExt.count "." (Py.chars b) = 0 /\
    ((p = patch /\ m = (a ++ "." ++ b)%string) \/
     (exists c, p = VStr c /\ m = (a ++ "." ++ b ++ "." ++ c)%string)).
Proof.
  intros Mi Pa V C. unfold split_version_and_name. rewrite Mi, Pa, V. simpl.
  destruct (split_max_2 (Py.chars m))
    as [[C0 _]|[[a [b [E [Ca [Cb ->]]]]]|[a [b [c [E [Ca [Cb ->]]]]]]]];
    [lia| |].
  - exists (Py.str a), (Py.str b), patch. simpl.
    rewrite !MoreNameFacts.chars_str. repeat split; auto.
    left. split; [reflexivity|].
    rewrite <- (str_chars m), E, str_app. reflexivity.
  - exists (Py.str a), (Py.str b), (VStr (Py.str c)). simpl.
    rewrite !MoreNameFacts.chars_str. repeat split; auto.
    right. exists (Py.str c). split; [reflexivity|].
    rewrite <- (str_chars m), E, str_app. simpl. now rewrite str_app.
Qed.

Lemma split_version_and_name_dotted_witness :
  exists a b p,
    split_version_and_name (VStr "3.12.0.1") VNone (VInt 0) (Some "cpython"%string)
    = Some (VStr a, VStr b, p, Some "cpython"%string) /\
    PyExt.count "." (Py.chars a) = 0 /\ PyExt.count "." (Py.chars b) = 0 /\
    ((p = VInt 0 /\ "3.12.0.1"%string = (a ++ "." ++ b)%string) \/
     (exists c, p = VStr c /\ "3.12.0.1"%string = (a ++ "." ++ b ++ "." ++ c)%string)).
Proof.
  apply split_version_and_name_dotted.
  - reflexivity.
  - reflexivity.
  - vm_compute. reflexivity.
  - vm_compute. lia.
Defined.

(** X11: for a major made of digits only, minor and patch being unset,
    the major returned is the first character of the string and the
    rest is dropped: 37 gives 3. *)
Theorem split_version_and_name_digits c m minor patch name :
  truth minor = false -> truth patch = false ->
  PyExt.isdigit (Py.chars (String c m)) = true ->
  split_version_and_name (VStr (String c m)) minor patch name
  = Some (VStr (String c EmptyString), minor, patch, name).
Proof.
  intros Mi Pa D. unfold split_version_and_name, version_like.
  rewrite Mi, Pa, D. cbn [negb andb orb].
  now rewrite (split_max_none "." 2 _ (isdigit_no_dot _ D)).
Qed.

Lemma split_version_and_name_digits_witness :
  split_version_and_name (VStr "37") VNone VNone None
  = Some (VStr "3", VNone, VNone, None).
Proof.
  apply (split_version_and_name_digits "3" "7"); reflexivity.
Defined.

(** ** Flattening, version-order files, directory filtering *)

Module FlattenFacts.

(** Induction on items, through the lists of the iterables. *)
Lemma item_induction (P : item -> Prop) :
  (forall n, P (Obj n)) ->
  (forall s, P (Str s)) ->
  (forall l, Forall P l -> P (Iter l)) ->
  forall it, P it.
Proof.
  intros HO HS HI. fix IH 1. intros [n|s|l].
  - apply HO.
  - apply HS.
  - apply HI. induction l as [|x l IHl]; constructor; [apply IH|exact IHl].
Qed.

Lemma unnest_Iter l : unnest (Iter l) = flat_map yield_of l.
Proof. reflexivity. Qed.

Lemma unnest_atoms it : forallb atom (unnest it) = true.
Proof.
  induction it as [n|s|l IH] using item_induction.
  - reflexivity.
  - simpl. induction (Py.chars s); simpl; auto.
  - rewrite unnest_Iter. induction IH as [|x l Hx _ IHl]; [reflexivity|].
    simpl. rewrite forallb_app, IHl, andb_true_r.
    destruct x; try reflexivity. exact Hx.
Qed.

Lemma unnest_flat l : forallb atom l = true -> unnest (Iter l) = l.
Proof.
  rewrite unnest_Iter. induction l as [|x l IH]; [reflexivity|].
  simpl. intros H. apply andb_true_iff in H as [A H]. rewrite (IH H).
  now destruct x.
Qed.

End FlattenFacts.

Import FlattenFacts.

(** X12: [unnest] yields no iterable other than strings, whatever the
    depth of the nesting, and yields the elements of an iterable that
    holds none unchanged; flattening its own output changes nothing. *)
Theorem unnest_flattens it :
  forallb atom (unnest it) = true /\
  (forall l, forallb atom l = true -> unnest (Iter l) = l) /\
  unnest (Iter (unnest it)) = unnest it.
Proof.
  split; [apply unnest_atoms|]. split; [apply unnest_flat|].
  apply unnest_flat, unnest_atoms.
Qed.

Lemma unnest_flattens_witness :
  unnest (Iter [Str "python3"; Obj 1]) = [Str "python3"; Obj 1].
Proof.
  apply (proj1 (proj2 (unnest_flattens (Obj 0))) [Str "python3"; Obj 1]).
  reflexivity.
Defined.


Module OrderFacts.

Lemma forallb_rev {A} (f : A -> bool) l : forallb f (rev l) = forallb f l.
Proof.
  induction l as [|x l IH]; [reflexivity|].
  simpl. rewrite forallb_app, IH. simpl. rewrite andb_true_r. apply andb_comm.
Qed.

Lemma words_from_ok : forall s cur,
  no_space cur = true ->
  forall w, In w (PyExt.words_from cur s) -> w <> [] /\ no_space w = true.
Proof.
  induction s as [|c s IH]; intros cur C w H; simpl in H.
  - destruct cur as [|d cur]; [destruct H|]. destruct H as [<-|[]]. split.
    + intros E. apply (f_equal (@length ascii)) in E.
      rewrite length_rev in E. discriminate.
    + unfold no_space in *. now rewrite forallb_rev.
  - destruct (Py.is_space c) eqn:S.
    + destruct cur as [|d cur]; [now apply (IH [])|].
      destruct H as [<-|H]; [|now apply (IH [])]. split.
      * intros E. apply (f_equal (@length ascii)) in E.
        rewrite length_rev in E. discriminate.
      * unfold no_space in *. now rewrite forallb_rev.
    + apply (IH (c :: cur)); [|exact H].
      unfold no_space in *. simpl. now rewrite S, C.
Qed.

Lemma lines_from_ok : forall s after_cr cur,
  no_linebreak cur = true ->
  forall l, In l (PyExt.lines_from after_cr cur s) -> no_linebreak l = true.
Proof.
  induction s as [|c s IH]; intros a cur C l H; simpl in H.
  - destruct cur as [|d cur]; [destruct H|]. destruct H as [<-|[]].
    unfold no_linebreak in *. now rewrite forallb_rev.
  - destruct (a && (Py.code c =? 10)); [now apply (IH false [])|].
    destruct (PyExt.is_linebreak c) eqn:B.
    + destruct H as [<-|H]; [|now apply (IH _ []) in H].
      unfold no_linebreak in *. now rewrite forallb_rev.
    + apply (IH false (c :: cur)); [|exact H].
      unfold no_linebreak in *. simpl. now rewrite B, C.
Qed.

End OrderFacts.

Import OrderFacts.

(** X14: every version [parse_asdf_version_order] returns is a word of
    the file: it is not empty and holds no white space; and versions
    are only returned when the file exists. *)
Theorem parse_asdf_version_order_words contents v :
  In v (parse_asdf_version_order contents) ->
  contents <> None /\ v <> EmptyString /\ no_space (Py.chars v) = true.
Proof.
  unfold parse_asdf_version_order. destruct contents as [text|]; [|intros []].
  intros H. split; [discriminate|].
  destruct (find _ _) as [section|]; [|destruct H].
  destruct (negb (Py.list_eqb section [])); [|destruct H].
  destruct (negb (Py.list_eqb (PyExt.partition_tail " " section) []));
    [|destruct H].
  apply in_map_iff in H as [w [<- H]].
  destruct (words_from_ok _ [] eq_refl w H) as [N S]. split.
  - intros E. apply N. now rewrite <- (MoreNameFacts.chars_str w), E.
  - now rewrite MoreNameFacts.chars_str.
Qed.

Lemma parse_asdf_version_order_words_witness :
  In "3.11.4"%string
    (parse_asdf_version_order
       (Some ("nodejs 18.0.0" ++ String (ascii_of_nat 10) "python  3.11.4 3.9.1")%string))
  /\ "3.11.4"%string <> EmptyString /\ no_space (Py.chars "3.11.4") = true.
Proof.
  assert (H : In "3.11.4"%string
                (parse_asdf_version_order
                   (Some ("nodejs 18.0.0"
                          ++ String (ascii_of_nat 10) "python  3.11.4 3.9.1")%string)))
    by (vm_compute; tauto).
  split; [exact H|].
  exact (proj2 (parse_asdf_version_order_words _ _ H)).
Defined.

(** X15: the entries [parse_pyenv_version_order] returns are the lines
    of the file: none of them holds a line boundary, so none ends in a
    carriage return or a line feed; without file there is no entry. *)
Theorem parse_pyenv_version_order_lines contents v :
  In v (parse_pyenv_version_order contents) ->
  contents <> None /\ no_linebreak (Py.chars v) = true.
Proof.
  unfold parse_pyenv_version_order. destruct contents as [text|]; [|intros []].
  intros H. split; [discriminate|].
  apply in_map_iff in H as [w [<- H]]. rewrite MoreNameFacts.chars_str.
  exact (lines_from_ok _ false [] eq_refl w H).
Qed.

Lemma parse_pyenv_version_order_lines_witness :
  In "3.9.1"%string
    (parse_pyenv_version_order
       (Some ("3.9.1" ++ String (ascii_of_nat 13)
                           (String (ascii_of_nat 10) "2.7.18"))%string))
  /\ no_linebreak (Py.chars "3.9.1") = true.
Proof.
  assert (H : In "3.9.1"%string
                (parse_pyenv_version_order
                   (Some ("3.9.1" ++ String (ascii_of_nat 13)
                                       (String (ascii_of_nat 10) "2.7.18"))%string)))
    by (vm_compute; tauto).
  split; [exact H|].
  exact (proj2 (parse_pyenv_version_order_lines _ _ H)).
Defined.

(** X16: whatever [filter_pythons] returns, for a file or from the
    listing of a directory, is executable, is a known executable, and
    has a name that starts with an implementation name in lower case
    not directly followed by w; for a directory it comes from the
    listing. *)
Theorem filter_pythons_sound e fs d path p :
  filter_pythons e fs d path = Single (Some p) \/
  (exists l, filter_pythons e fs d path = Several l /\ In p l) ->
  (p = path \/ In p (iterdir d path)) /\
  path_is_executable fs p = true /\
  path_is_known_executable e fs p = true /\
  exists impl tail,
    In impl PYTHON_IMPLEMENTATIONS /\ path_name p = (impl ++ tail)%string /\
    Py.startswith (Py.chars tail) (Py.chars "w") = false.
Proof.
  intros H.
  assert (G : (p = path \/ In p (iterdir d path)) /\ path_is_python e fs p = true).
  { unfold filter_pythons in H. destruct (negb (is_dir d path)).
    - destruct H as [H|[l [H _]]]; [|discriminate].
      destruct (path_is_python e fs path) eqn:P; [|discriminate].
      injection H as <-. auto.
    - destruct H as [H|[l [H I]]]; [discriminate|].
      injection H as <-. apply filter_In in I as [I P]. auto. }
  destruct G as [G P]. split; [exact G|].
  unfold path_is_python in P. apply andb_true_iff in P as [X L].
  split; [exact X|]. split.
  - unfold path_is_known_executable. now rewrite X.
  - now destruct (MoreNameFacts.looks_like_python_sound _ _ L) as [N _].
Qed.

Lemma filter_pythons_sound_witness :
  path_is_known_executable posix (mkFS (fun _ => true) (fun _ => true))
    (mkPath "/usr/bin/python3" "python3") = true.
Proof.
  apply (filter_pythons_sound posix (mkFS (fun _ => true) (fun _ => true))
           (mkDirs (fun _ => true)
              (fun _ => [mkPath "/usr/bin/env" "env";
                         mkPath "/usr/bin/python3" "python3"]))
           (mkPath "/usr/bin" "bin") (mkPath "/usr/bin/python3" "python3")).
  right. eexists. split; [vm_compute; reflexivity|]. left. reflexivity.
Defined.

(** X17: [is_in_path] is a prefix test on normalized strings, hence
    reflexive and transitive whatever the normalization does. *)
Theorem is_in_path_preorder normalize_path :
  (forall p, is_in_path normalize_path p p = true) /\
  (forall p q r,
      is_in_path normalize_path p q = true ->
      is_in_path normalize_path q r = true ->
      is_in_path normalize_path p r = true).
Proof.
  unfold is_in_path. split.
  - intros p. rewrite <- (app_nil_r (Py.chars (normalize_path p))) at 1.
    apply startswith_app.
  - intros p q r H1 H2. apply startswith_iff in H1 as [x E1].
    apply startswith_iff in H2 as [y E2]. apply startswith_iff.
    exists (y ++ x). now rewrite E1, E2, app_assoc.
Qed.

Lemma is_in_path_preorder_witness :
  is_in_path (fun p => p) "/usr/local/bin/python3" "/usr" = true.
Proof.
  apply (proj2 (is_in_path_preorder (fun p => p))
           "/usr/local/bin/python3" "/usr/local" "/usr")%string;
    vm_compute; reflexivity.
Defined.

(** ** Plain dotted versions *)

Module FirstFacts.

Lemma run_Star_loop a s : run (Star a) s = star_loop (run a) (length (rest s)) s.
Proof. reflexivity. Qed.

Lemma hd_flat_map {A B} (f : A -> list B) l x y :
  hd_error l = Some x -> hd_error (f x) = Some y ->
  hd_error (flat_map f l) = Some y.
Proof.
  destruct l as [|x' l]; [discriminate|]. intros [= ->] H. simpl.
  destruct (f x); [discriminate|]. exact H.
Qed.

Lemma hd_app {A} (l l' : list A) x : hd_error l = Some x -> hd_error (l ++ l') = Some x.
Proof. now destruct l. Qed.

Lemma first_Seq a b s s1 s2 :
  first a s = Some s1 -> first b s1 = Some s2 -> first (Seq a b) s = Some s2.
Proof. unfold first. rewrite run_Seq. apply hd_flat_map. Qed.

Lemma first_Opt_take a s s1 : first a s = Some s1 -> first (Opt a) s = Some s1.
Proof. unfold first. intros H. simpl. now apply hd_app. Qed.

Lemma first_Opt_skip a s : run a s = [] -> first (Opt a) s = Some s.
Proof. unfold first. intros H. simpl. now rewrite H. Qed.

Lemma first_Group g a s s1 :
  first a s = Some s1 -> first (Group g a) s = Some (capture g s s1).
Proof.
  unfold first. rewrite run_Group. destruct (run a s); [discriminate|].
  now intros [= ->].
Qed.

Lemma first_Star_stop a s : run a s = [] -> first (Star a) s = Some s.
Proof.
  unfold first. rewrite run_Star_loop. intros H.
  destruct (length (rest s)); simpl; [reflexivity|]. now rewrite H.
Qed.

(** A class repeated takes the longest run of its characters first. *)
Lemma star_loop_class p r :
  match r with c :: _ => p c = false | [] => True end ->
  forall w B C n,
    forallb p w = true -> length w <= n ->
    hd_error (star_loop (run (Chr p)) n (mkState B (w ++ r) C))
    = Some (mkState (rev w ++ B) r C).
Proof.
  intros R. induction w as [|c w IH]; intros B C n W L.
  - destruct n; [reflexivity|]. simpl. unfold step. simpl.
    destruct r as [|c r]; [reflexivity|]. now rewrite R.
  - destruct n as [|n]; [inversion L|]. simpl in W.
    apply andb_true_iff in W as [Pc W].
    cbn [star_loop]. apply hd_app.
    cbn [run]. unfold step. cbn [rest app before caps]. rewrite Pc.
    cbn [flat_map rest]. rewrite app_nil_r.
    replace (length (w ++ r) <? length (c :: w ++ r)) with true
      by (symmetry; apply Nat.ltb_lt; simpl; lia).
    rewrite IH; [|exact W|simpl in L; lia].
    simpl. now rewrite <- app_assoc.
Qed.

(** Digits first take the whole number. *)
Lemma first_digits w r B C :
  digit_string w ->
  match r with c :: _ => Py.is_digit c = false | [] => True end ->
  first digits (mkState B (w ++ r) C) = Some (mkState (rev w ++ B) r C).
Proof.
  intros [N W] R. destruct w as [|c w]; [congruence|]. simpl in W.
  apply andb_true_iff in W as [Pc W].
  unfold first, digits, Plus. rewrite run_Seq.
  apply hd_flat_map with (x := mkState (c :: B) (w ++ r) C).
  - cbn [run]. unfold step. cbn [rest app before caps]. now rewrite Pc.
  - rewrite run_Star_loop. cbn [rest].
    rewrite (star_loop_class Py.is_digit r R w (c :: B) C); [|exact W|].
    + simpl. now rewrite <- app_assoc.
    + rewrite length_app. lia.
Qed.

Lemma text_states B w r C B' C' :
  B' = rev w ++ B -> text (mkState B (w ++ r) C) (mkState B' r C') = w.
Proof. intros ->. now apply text_extends. Qed.

Lemma first_Group_digits g w r B C :
  digit_string w ->
  match r with c :: _ => Py.is_digit c = false | [] => True end ->
  first (Group g digits) (mkState B (w ++ r) C)
  = Some (mkState (rev w ++ B) r ((g, w) :: C)).
Proof.
  intros W R. rewrite (first_Group _ _ _ _ (first_digits w r B C W R)).
  unfold capture. cbn [before rest caps]. now rewrite text_states.
Qed.

End FirstFacts.

Module DottedFacts.

Import FirstFacts.

Lemma first_Lit_dot B x C :
  first (Lit ".") (mkState B ("."%char :: x) C) = Some (mkState ("."%char :: B) x C).
Proof. reflexivity. Qed.

Lemma text_self s : text s s = [].
Proof. unfold text. now rewrite Nat.sub_diag. Qed.

Lemma first_Group_digits_end g w B C :
  digit_string w ->
  first (Group g digits) (mkState B w C) = Some (mkState (rev w ++ B) [] ((g, w) :: C)).
Proof.
  intros W. pose proof (first_Group_digits g w [] B C W I) as H.
  now rewrite app_nil_r in H.
Qed.

(** The tail of the version grammar at the end of the input: only the
    empty postdev group is recorded. *)
Lemma version_re_tail_end B C :
  first (SeqL [Opt (Lit ".");
               Opt (Seq (Group "prerel" (AltL [OneOf "abc"; Lit "rc"; Lit "dev"]))
                        (Opt (Group "prerelversion"
                                (Seq digits (Star (Seq (Lit ".") digits))))));
               Opt (Group "postdev"
                      (Seq (Opt (Seq (Lit ".post") (Group "post" digits)))
                           (Opt (Seq (Lit ".dev") (Group "dev" digits)))))])
    (mkState B [] C)
  = Some (mkState B [] (("postdev"%string, []) :: C)).
Proof.
  cbn [SeqL].
  eapply first_Seq; [apply first_Opt_skip; reflexivity|].
  eapply first_Seq; [apply first_Opt_skip; reflexivity|].
  rewrite (first_Opt_take _ _ (capture "postdev" (mkState B [] C) (mkState B [] C))).
  - unfold capture. cbn [before rest caps]. now rewrite text_self.
  - apply first_Group.
    eapply first_Seq; apply first_Opt_skip; reflexivity.
Qed.

Lemma first_patch w B C :
  digit_string w ->
  first (Group "patch" (Seq (Behind (Py.ascii_eqb ".")) digits))
    (mkState ("."%char :: B) w C)
  = Some (mkState (rev w ++ "."%char :: B) [] (("patch"%string, w) :: C)).
Proof.
  intros W.
  rewrite (first_Group _ _ _ (mkState (rev w ++ "."%char :: B) [] C)).
  - unfold capture. cbn [before rest caps]. f_equal. f_equal. f_equal. f_equal.
    rewrite <- (app_nil_r w) at 1. now apply text_states.
  - eapply first_Seq; [reflexivity|].
    pose proof (first_digits w [] ("."%char :: B) C W I) as H.
    now rewrite app_nil_r in H.
Qed.

Lemma version_re_one a :
  digit_string a ->
  match_ version_re a
  = Some (mkState (rev a ++ []) [] [("postdev"%string, []); ("major"%string, a)]).
Proof.
  intros A. change (match_ version_re a) with (first version_re (init a)).
  unfold version_re, version_re_str, init. cbn [SeqL].
  eapply first_Seq; [now apply first_Group_digits_end|].
  eapply first_Seq; [apply first_Opt_skip; reflexivity|].
  eapply first_Seq; [apply first_Opt_skip; reflexivity|].
  apply version_re_tail_end.
Qed.

Lemma version_re_two a b :
  digit_string a -> digit_string b ->
  match_ version_re (a ++ "."%char :: b)
  = Some (mkState (rev b ++ "."%char :: rev a ++ []) []
            [("postdev"%string, []); ("minor"%string, b); ("major"%string, a)]).
Proof.
  intros A Bd.
  change (match_ version_re ?x) with (first version_re (init x)).
  unfold version_re, version_re_str, init. cbn [SeqL].
  eapply first_Seq; [now apply first_Group_digits|].
  eapply first_Seq.
  { apply first_Opt_take. eapply first_Seq; [apply first_Lit_dot|].
    now apply first_Group_digits_end. }
  eapply first_Seq; [apply first_Opt_skip; reflexivity|].
  apply version_re_tail_end.
Qed.

Lemma version_re_three a b c :
  digit_string a -> digit_string b -> digit_string c ->
  match_ version_re (a ++ "."%char :: b ++ "."%char :: c)
  = Some (mkState (rev c ++ "."%char :: rev b ++ "."%char :: rev a ++ []) []
            [("postdev"%string, []); ("patch"%string, c);
             ("minor"%string, b); ("major"%string, a)]).
Proof.
  intros A Bd Cd.
  change (match_ version_re ?x) with (first version_re (init x)).
  unfold version_re, version_re_str, init. cbn [SeqL].
  eapply first_Seq; [now apply first_Group_digits|].
  eapply first_Seq.
  { apply first_Opt_take. eapply first_Seq; [apply first_Lit_dot|].
    now apply first_Group_digits. }
  eapply first_Seq.
  { apply first_Opt_take. eapply first_Seq; [apply first_Lit_dot|].
    now apply first_patch. }
  apply version_re_tail_end.
Qed.

(** ** The strict normalizer on dotted numbers *)

Lemma dotted_tail a more : dotted a more = a ++ dot_tail more.
Proof.
  unfold dotted. revert a. induction more as [|b more IH]; intros a.
  - simpl. now rewrite app_nil_r.
  - change (Py.join (Py.chars ".") (a :: b :: more))
      with (a ++ Py.chars "." ++ Py.join (Py.chars ".") (b :: more)).
    now rewrite IH.
Qed.

Lemma digits_dot_or_digit w : forallb Py.is_digit w = true -> forallb dot_or_digit w = true.
Proof.
  induction w as [|c w IH]; [reflexivity|]. simpl. intros H.
  apply andb_true_iff in H as [D H]. unfold dot_or_digit at 1. now rewrite D, IH.
Qed.

Lemma dotted_dot_or_digit a more :
  digit_string a -> Forall digit_string more ->
  forallb dot_or_digit (a ++ dot_tail more) = true.
Proof.
  intros [_ A] M. rewrite forallb_app, (digits_dot_or_digit _ A). simpl.
  induction M as [|b more [_ Bd] _ IH]; [reflexivity|].
  simpl. now rewrite forallb_app, (digits_dot_or_digit _ Bd), IH.
Qed.

Lemma dot_or_digit_cases c :
  dot_or_digit c = true ->
  In c ["."; "0"; "1"; "2"; "3"; "4"; "5"; "6"; "7"; "8"; "9"]%char.
Proof.
  destruct c as [[|] [|] [|] [|] [|] [|] [|] [|]];
    vm_compute; intros H; try discriminate; tauto.
Qed.

Lemma lower_dot_or_digit s : forallb dot_or_digit s = true -> Py.lower s = s.
Proof.
  induction s as [|c s IH]; [reflexivity|]. simpl. intros H.
  apply andb_true_iff in H as [D H]. rewrite (IH H). f_equal.
  apply dot_or_digit_cases in D. simpl in D.
  repeat (destruct D as [<-|D]; [reflexivity|]). destruct D.
Qed.

(** Nothing of the pattern but a number can start at a digit or a dot. *)
Lemma run_reject_dot_or_digit r :
  (forall c, In c ["."; "0"; "1"; "2"; "3"; "4"; "5"; "6"; "7"; "8"; "9"]%char ->
             forall B t C, run r (mkState B (c :: t) C) = []) ->
  (forall B C, run r (mkState B [] C) = []) ->
  forall s, forallb dot_or_digit (rest s) = true -> run r s = [].
Proof.
  intros Hc Hn [B [|c t] C]; simpl; intros H; [apply Hn|].
  apply andb_true_iff in H as [D _]. apply Hc. now apply dot_or_digit_cases.
Qed.

Lemma run_bang s :
  forallb dot_or_digit (rest s) = true -> run (Lit "!") s = [].
Proof.
  apply run_reject_dot_or_digit; [|reflexivity].
  intros c H B t C. simpl in H.
  repeat (destruct H as [<-|H]; [reflexivity|]). destruct H.
Qed.

Lemma flat_map_nil {A B} (f : A -> list B) l :
  (forall x, In x l -> f x = []) -> flat_map f l = [].
Proof.
  induction l as [|x l IH]; [reflexivity|]. intros H. simpl.
  rewrite (H x) by now left. apply IH. intros y Hy. apply H. now right.
Qed.

Lemma suffix_dot_or_digit s s' :
  extends s s' -> forallb dot_or_digit (rest s) = true ->
  forallb dot_or_digit (rest s') = true.
Proof.
  intros [w [R _]] H. rewrite R, forallb_app in H.
  now apply andb_true_iff in H as [_ H].
Qed.

(** No epoch is read from dotted numbers. *)
Lemma run_epoch s :
  forallb dot_or_digit (rest s) = true ->
  run (Seq (Group "epoch" Packaging.digits1) (Lit "!")) s = [].
Proof.
  intros H. rewrite run_Seq. apply flat_map_nil. intros s' Hs.
  apply run_bang. apply (suffix_dot_or_digit s); [|exact H].
  now apply run_extends in Hs.
Qed.

(** The release segment takes all the numbers. *)
Lemma star_loop_release more : forall B C n,
  Forall digit_string more -> length (dot_tail more) <= n ->
  hd_error (star_loop (run (Seq (Lit ".") Packaging.digits1)) n
              (mkState B (dot_tail more) C))
  = Some (mkState (rev (dot_tail more) ++ B) [] C).
Proof.
  induction more as [|b more IH]; intros B C n M L.
  - destruct n; reflexivity.
  - inversion M as [|? ? Bd M']; subst.
    destruct n as [|n]; [inversion L|].
    change (dot_tail (b :: more)) with ("."%char :: b ++ dot_tail more) in *.
    cbn [star_loop]. apply hd_app.
    apply hd_flat_map
      with (x := mkState (rev b ++ "."%char :: B) (dot_tail more) C).
    + apply first_Seq with (s1 := mkState ("."%char :: B) (b ++ dot_tail more) C);
        [apply first_Lit_dot|].
      apply first_digits; [exact Bd|]. now destruct more.
    + cbn [rest].
      replace (length (dot_tail more) <? length ("."%char :: b ++ dot_tail more))
        with true by (symmetry; apply Nat.ltb_lt; simpl; rewrite length_app; lia).
      rewrite IH; [|exact M'|simpl in L; rewrite length_app in L; lia].
      f_equal. f_equal. simpl. rewrite rev_app_distr, <- !app_assoc. reflexivity.
Qed.

Ltac reject_start H :=
  apply run_reject_dot_or_digit;
  [ let c := fresh "c" in
    let Hc := fresh "Hc" in
    intros c Hc ? ? ?; simpl in Hc;
    repeat (destruct Hc as [<-|Hc]; [reflexivity|]); destruct Hc
  | reflexivity
  | exact H ].

Lemma first_release a more :
  digit_string a -> Forall digit_string more ->
  first (Group "release"
           (Seq Packaging.digits1 (Star (Seq (Lit ".") Packaging.digits1))))
    (mkState [] (a ++ dot_tail more) [])
  = Some (mkState (rev (dot_tail more) ++ rev a ++ []) []
            [("release"%string, a ++ dot_tail more)]).
Proof.
  intros A M.
  rewrite (first_Group _ _ _ (mkState (rev (dot_tail more) ++ rev a ++ []) [] [])).
  - unfold capture. cbn [before rest caps]. f_equal. f_equal. f_equal. f_equal.
    apply text_extends; cbn [before rest].
    + now rewrite app_nil_r.
    + now rewrite rev_app_distr, app_nil_r, app_nil_r.
  - apply first_Seq with (s1 := mkState (rev a ++ []) (dot_tail more) []).
    + apply (first_digits a (dot_tail more) [] [] A). now destruct more.
    + unfold first. rewrite run_Star_loop. now apply star_loop_release.
Qed.

Lemma packaging_match a more :
  digit_string a -> Forall digit_string more ->
  match_ Packaging._regex (a ++ dot_tail more)
  = Some (mkState (rev (dot_tail more) ++ rev a ++ []) []
            [("release"%string, a ++ dot_tail more)]).
Proof.
  intros A M. pose proof (dotted_dot_or_digit a more A M) as H.
  change (match_ Packaging._regex ?x) with (first Packaging._regex (init x)).
  unfold Packaging._regex, Packaging.VERSION_PATTERN, init. cbn [SeqL].
  eapply first_Seq; [apply first_Star_stop; reject_start H|].
  eapply first_Seq.
  { eapply first_Seq; [apply first_Opt_skip; reject_start H|].
    eapply first_Seq; [apply first_Opt_skip; now apply run_epoch|].
    eapply first_Seq; [now apply first_release|].
    eapply first_Seq; [apply first_Opt_skip; reflexivity|].
    eapply first_Seq; [apply first_Opt_skip; reflexivity|].
    eapply first_Seq; [apply first_Opt_skip; reflexivity|].
    apply first_Opt_skip; reflexivity. }
  eapply first_Seq; [apply first_Star_stop; reflexivity|].
  reflexivity.
Qed.

Lemma split_nonempty sep s : Py.split sep s <> [].
Proof.
  destruct s as [|c s]; simpl; [discriminate|].
  destruct (Py.ascii_eqb c sep); [discriminate|].
  destruct (Py.split sep s); discriminate.
Qed.

Lemma split_digits a : forall r,
  forallb Py.is_digit a = true ->
  Py.split "." (a ++ r)
  = match Py.split "." r with
    | w :: ws => (a ++ w) :: ws
    | [] => [a]
    end.
Proof.
  induction a as [|c a IH]; intros r H.
  - simpl. pose proof (split_nonempty "." r). now destruct (Py.split "." r).
  - simpl in H. apply andb_true_iff in H as [D H]. simpl.
    replace (Py.ascii_eqb c ".") with false
      by (destruct (Py.ascii_eqb c ".") eqn:E; [|reflexivity];
          apply PyFacts.ascii_eqb_eq in E; subst c; discriminate).
    rewrite (IH r H). now destruct (Py.split "." r).
Qed.

Lemma split_dotted a more :
  digit_string a -> Forall digit_string more ->
  Py.split "." (a ++ dot_tail more) = a :: more.
Proof.
  intros A M. revert a A. induction M as [|b more Bd M IH]; intros a [_ A].
  - cbn [dot_tail flat_map]. rewrite (split_digits a [] A). simpl.
    now rewrite app_nil_r.
  - rewrite (split_digits a _ A).
    change (dot_tail (b :: more)) with ("."%char :: b ++ dot_tail more).
    change (Py.split "." ("."%char :: b ++ dot_tail more))
      with ([] :: Py.split "." (b ++ dot_tail more)).
    now rewrite (IH b Bd), app_nil_r.
Qed.

(** The strict normalizer reads dotted numbers as a plain release. *)
Lemma packaging_parse_dotted a more :
  digit_string a -> Forall digit_string more ->
  Packaging.parse (dotted a more)
  = Some (Packaging.mkVersion 0 (map Py.int (a :: more)) None None None None).
Proof.
  intros A M. unfold Packaging.parse.
  rewrite dotted_tail, (lower_dot_or_digit _ (dotted_dot_or_digit a more A M)).
  rewrite (packaging_match a more A M).
  unfold get. cbn [caps group String.eqb Ascii.eqb Bool.eqb Packaging.truthy
                   Packaging._parse_letter_version option_map].
  now rewrite (split_dotted a more A M).
Qed.

Lemma endswith_dotted a more :
  digit_string a -> Forall digit_string more ->
  Py.endswith (dotted a more) (Py.chars "-debug") = false.
Proof.
  intros A M. rewrite dotted_tail.
  pose proof (dotted_dot_or_digit a more A M) as H.
  rewrite <- OrderFacts.forallb_rev in H. unfold Py.endswith.
  destruct (rev (a ++ dot_tail more)) as [|c l] eqn:E.
  - apply (f_equal (@length ascii)) in E.
    rewrite length_rev, length_app in E. destruct A as [N _].
    destruct a; [congruence|discriminate].
  - simpl in H. apply andb_true_iff in H as [D _].
    apply dot_or_digit_cases in D. simpl in D.
    repeat (destruct D as [<-|D]; [reflexivity|]). destruct D.
Qed.

(** Numbers within the limit are converted. *)
Lemma within_limit_int a : within_limit a -> Py.int_raises a = false.
Proof. intros H. unfold Py.int_raises. now apply Nat.ltb_ge. Qed.

Lemma within_limit_all more :
  Forall within_limit more -> existsb Py.int_raises more = false.
Proof.
  induction 1 as [|b more B _ IH]; [reflexivity|].
  cbn [existsb]. now rewrite (within_limit_int b B), IH.
Qed.

Lemma too_long_nth more k :
  Forall within_limit more -> Packaging.too_long (nth_error more k) = false.
Proof.
  intros L. destruct (nth_error more k) as [b|] eqn:E; [|reflexivity].
  apply nth_error_In in E. rewrite Forall_forall in L.
  exact (within_limit_int b (L b E)).
Qed.

(** The strict normalizer converts every number of a dotted version. *)
Lemma packaging_dotted_converts a more :
  digit_string a -> Forall digit_string more ->
  within_limit a -> Forall within_limit more ->
  Packaging.raises_ValueError (dotted a more) = false.
Proof.
  intros A M La Lm. unfold Packaging.raises_ValueError.
  rewrite dotted_tail, (lower_dot_or_digit _ (dotted_dot_or_digit a more A M)).
  rewrite (packaging_match a more A M).
  unfold get. cbn [caps group String.eqb Ascii.eqb Bool.eqb Packaging.truthy
                   Packaging.too_long orb].
  rewrite (split_dotted a more A M). cbn [existsb].
  now rewrite (within_limit_int a La), (within_limit_all more Lm).
Qed.

(** The strict normalizer raises ValueError only on a string it reads. *)
Lemma packaging_rejected_converts s :
  Packaging.parse s = None -> Packaging.raises_ValueError s = false.
Proof.
  unfold Packaging.parse, Packaging.raises_ValueError.
  now destruct (match_ Packaging._regex (Py.lower s)).
Qed.

(** ** A fourth number and beyond *)

Lemma digit_cases c :
  Py.is_digit c = true ->
  In c ["0"; "1"; "2"; "3"; "4"; "5"; "6"; "7"; "8"; "9"]%char.
Proof.
  destruct c as [[|] [|] [|] [|] [|] [|] [|] [|]];
    vm_compute; intros H; try discriminate; tauto.
Qed.

Lemma first_patch_more w r B C :
  digit_string w ->
  match r with c :: _ => Py.is_digit c = false | [] => True end ->
  first (Group "patch" (Seq (Behind (Py.ascii_eqb ".")) digits))
    (mkState ("."%char :: B) (w ++ r) C)
  = Some (mkState (rev w ++ "."%char :: B) r (("patch"%string, w) :: C)).
Proof.
  intros W R.
  rewrite (first_Group _ _ _ (mkState (rev w ++ "."%char :: B) r C)).
  - unfold capture. cbn [before rest caps]. now rewrite text_states.
  - eapply first_Seq; [reflexivity|]. now apply first_digits.
Qed.

(** The tail of the version grammar before a further number: nothing
    is read, and the empty postdev group is recorded. *)
Lemma version_re_tail_digit c t B C :
  Py.is_digit c = true ->
  first (SeqL [Opt (Seq (Group "prerel" (AltL [OneOf "abc"; Lit "rc"; Lit "dev"]))
                        (Opt (Group "prerelversion"
                                (Seq digits (Star (Seq (Lit ".") digits))))));
               Opt (Group "postdev"
                      (Seq (Opt (Seq (Lit ".post") (Group "post" digits)))
                           (Opt (Seq (Lit ".dev") (Group "dev" digits)))))])
    (mkState B (c :: t) C)
  = Some (mkState B (c :: t) (("postdev"%string, []) :: C)).
Proof.
  intros D. apply digit_cases in D. cbn [SeqL]. simpl in D.
  repeat (destruct D as [<-|D];
    [ eapply first_Seq; [apply first_Opt_skip; reflexivity|];
      match goal with
      | |- first _ ?s = _ => rewrite (first_Opt_take _ _ (capture "postdev" s s))
      end;
      [ unfold capture; cbn [before rest caps]; now rewrite text_self
      | apply first_Group; eapply first_Seq; apply first_Opt_skip; reflexivity ]
    | ]).
  destruct D.
Qed.

Lemma version_re_many a b c d more :
  digit_string a -> digit_string b -> digit_string c -> digit_string d ->
  exists m,
    match_ version_re
      (a ++ "."%char :: b ++ "."%char :: c ++ "."%char :: d ++ dot_tail more)
    = Some m /\
    caps m = [("postdev"%string, []); ("patch"%string, c);
              ("minor"%string, b); ("major"%string, a)].
Proof.
  intros A Bd Cd [Dn Dd]. destruct d as [|dc d']; [congruence|].
  simpl in Dd. apply andb_true_iff in Dd as [Dc _].
  eexists. split.
  - change (match_ version_re ?x) with (first version_re (init x)).
    unfold version_re, version_re_str, init. cbn [SeqL].
    eapply first_Seq; [now apply first_Group_digits|].
    eapply first_Seq.
    { apply first_Opt_take. eapply first_Seq; [apply first_Lit_dot|].
      now apply first_Group_digits. }
    eapply first_Seq.
    { apply first_Opt_take. eapply first_Seq; [apply first_Lit_dot|].
      now apply first_patch_more. }
    eapply first_Seq; [apply first_Opt_take, first_Lit_dot|].
    now apply version_re_tail_digit.
  - reflexivity.
Qed.

(** The groups of the version grammar on dotted numbers. *)
Lemma version_re_dotted a more :
  digit_string a -> Forall digit_string more ->
  exists m,
    match_ version_re (dotted a more) = Some m /\
    get m "major" = Some a /\
    get m "minor" = nth_error more 0 /\
    get m "patch" = nth_error more 1 /\
    get m "prerel" = None /\ get m "post" = None /\ get m "dev" = None.
Proof.
  intros A M. rewrite dotted_tail.
  destruct more as [|b [|c [|d more]]].
  - eexists. split; [cbn [dot_tail flat_map]; rewrite app_nil_r;
                     now apply version_re_one|].
    repeat split.
  - inversion M as [|? ? Bd _]; subst.
    eexists. split; [cbn [dot_tail flat_map app]; rewrite app_nil_r;
                     now apply version_re_two|].
    repeat split.
  - inversion M as [|? ? Bd M1]; subst. inversion M1 as [|? ? Cd _]; subst.
    eexists. split; [cbn [dot_tail flat_map app]; rewrite app_nil_r;
                     now apply version_re_three|].
    repeat split.
  - inversion M as [|? ? Bd M1]; subst. inversion M1 as [|? ? Cd M2]; subst.
    inversion M2 as [|? ? Dd _]; subst.
    destruct (version_re_many a b c d more A Bd Cd Dd) as [m [E Cm]].
    exists m. split.
    + rewrite <- E. reflexivity.
    + unfold get. rewrite Cm. repeat split.
Qed.

End DottedFacts.

Import DottedFacts.

Lemma int_or_None_nth more k :
  Forall digit_string more ->
  int_or_None (nth_error more k) = option_map Py.int (nth_error more k).
Proof.
  intros M. destruct (nth_error more k) as [b|] eqn:E; [|reflexivity].
  apply nth_error_In in E. rewrite Forall_forall in M.
  destruct (M b E) as [N _]. now apply int_or_None_some.
Qed.

Lemma int_again (o : option Z) :
  match o with
  | Some p => if Z.eqb p 0 then o else Some p
  | None => o
  end = o.
Proof. destruct o as [p|]; [|reflexivity]. now destruct (Z.eqb p 0). Qed.

Lemma parse_stripped_dotted d a more :
  digit_string a -> Forall digit_string more ->
  within_limit a -> Forall within_limit more ->
  parse_stripped d (dotted a more)
  = Ok (mkParsed (Some (Py.int a))
          (option_map Py.int (nth_error more 0))
          (option_map Py.int (nth_error more 1))
          false false false d
          (Some (Packaging.mkVersion 0 (map Py.int (a :: more))
                   None None None None))).
Proof.
  intros A M La Lm. unfold parse_stripped.
  destruct (version_re_dotted a more A M)
    as [m [E [Gj [Gi [Gp [Gr [Gpo Gd]]]]]]].
  rewrite E, Gj, Gi, Gp, Gr, Gpo, Gd, (packaging_parse_dotted a more A M).
  rewrite (packaging_dotted_converts a more A M La Lm), !(too_long_nth more _ Lm).
  cbn [Packaging.too_long]. rewrite (within_limit_int a La). cbn [orb].
  rewrite int_again, !(int_or_None_nth more _ M).
  rewrite (int_or_None_some a (proj1 A)). reflexivity.
Qed.

(** X18: a version written as decimal numbers joined by dots, as the
    interpreter prints it (3.11.4), none of them longer than the 4300
    digits that [int] converts, is parsed without error: major is
    the first number, minor and patch are the
    second and the third when there are such, no release flag is set,
    and the normalized version is the plain release made of all the
    numbers, which the strict normalizer accepts as they are.  With
    -debug appended the result is the same but for is_debug. *)
Theorem parse_python_version_dotted a more :
  digit_string a -> Forall digit_string more ->
  within_limit a -> Forall within_limit more ->
  let parsed d :=
    Ok (mkParsed (Some (Py.int a))
          (option_map Py.int (nth_error more 0))
          (option_map Py.int (nth_error more 1))
          false false false d
          (Some (Packaging.mkVersion 0 (map Py.int (a :: more))
                   None None None None))) in
  parse_python_version (Py.str (dotted a more)) = parsed false /\
  parse_python_version (Py.str (dotted a more) ++ "-debug") = parsed true /\
  Packaging.parse (dotted a more)
  = Some (Packaging.mkVersion 0 (map Py.int (a :: more)) None None None None).
Proof.
  intros A M La Lm parsed. unfold parse_python_version. split; [|split].
  - rewrite MoreNameFacts.chars_str. unfold strip_debug.
    rewrite (endswith_dotted a more A M). now apply parse_stripped_dotted.
  - rewrite chars_app, MoreNameFacts.chars_str, strip_debug_app.
    now apply parse_stripped_dotted.
  - now apply packaging_parse_dotted.
Qed.

Lemma parse_python_version_dotted_witness :
  parse_python_version "3.11.4"
  = Ok (mkParsed (Some 3%Z) (Some 11%Z) (Some 4%Z) false false false false
          (Some (Packaging.mkVersion 0 [3%Z; 11%Z; 4%Z] None None None None))).
Proof.
  apply (fun A M La Lm =>
           proj1 (parse_python_version_dotted (Py.chars "3")
                    [Py.chars "11"; Py.chars "4"] A M La Lm)).
  - split; [discriminate|reflexivity].
  - repeat constructor; discriminate.
  - unfold within_limit, Py.int_max_str_digits. simpl. lia.
  - repeat constructor; unfold within_limit, Py.int_max_str_digits; simpl; lia.
Defined.

(** ** Names with a two-digit minor version *)

Module TwoDigitFacts.

Lemma fnmatchcase_star name pat :
  Fnmatch.fnmatchcase name ("*"%char :: pat)
  = star_match (fun n => Fnmatch.fnmatchcase n pat) name.
Proof. reflexivity. Qed.

Lemma star_match_ext k k' :
  (forall n, k n = k' n) -> forall n, star_match k n = star_match k' n.
Proof.
  intros H. induction n as [|c n IH]; simpl; rewrite H; [reflexivity|].
  now rewrite IH.
Qed.

Lemma star_match_map (f : ascii -> ascii) k :
  forall n, star_match k (map f n) = star_match (fun m => k (map f m)) n.
Proof.
  induction n as [|c n IH]; simpl; [reflexivity|]. now rewrite IH.
Qed.

Lemma eqb_canon c d :
  Py.is_digit c = false -> Py.ascii_eqb c (canon_digit d) = Py.ascii_eqb c d.
Proof.
  intros C. unfold canon_digit. destruct (Py.is_digit d) eqn:D; [|reflexivity].
  destruct (Py.ascii_eqb c d) eqn:E.
  - apply PyFacts.ascii_eqb_eq in E. congruence.
  - destruct (Py.ascii_eqb c "0") eqn:E0; [|reflexivity].
    apply PyFacts.ascii_eqb_eq in E0. subst c. discriminate.
Qed.

(** A pattern without digit does not tell one digit from another. *)
Lemma fnmatchcase_canon pat :
  no_digit pat = true ->
  forall name,
    Fnmatch.fnmatchcase (map canon_digit name) pat = Fnmatch.fnmatchcase name pat.
Proof.
  induction pat as [|c pat IH]; intros N name.
  - now destruct name.
  - simpl in N. apply andb_true_iff in N as [C N].
    apply negb_true_iff in C. specialize (IH N).
    destruct (Py.ascii_eqb c "*") eqn:S.
    + apply PyFacts.ascii_eqb_eq in S. subst c.
      rewrite !fnmatchcase_star, star_match_map.
      now apply star_match_ext.
    + destruct name as [|d name]; simpl; rewrite S;
        destruct (Py.ascii_eqb c "?"); auto.
      now rewrite IH, eqb_canon.
Qed.

Lemma normcase_canon e n :
  Fnmatch.normcase e (map canon_digit n) = map canon_digit (Fnmatch.normcase e n).
Proof.
  unfold Fnmatch.normcase. destruct (os_name_nt e); [|reflexivity].
  unfold Py.lower. rewrite !map_map. apply map_ext. intros c.
  destruct c as [[|] [|] [|] [|] [|] [|] [|] [|]]; vm_compute; reflexivity.
Qed.

Lemma existsb_false {A} (f : A -> bool) l :
  (forall x, In x l -> f x = false) -> existsb f l = false.
Proof.
  induction l as [|x l IH]; [reflexivity|]. intros H. simpl.
  rewrite (H x) by now left. apply IH. intros y Hy. apply H. now right.
Qed.

Lemma existsb_false_In {A} (f : A -> bool) l x :
  existsb f l = false -> In x l -> f x = false.
Proof.
  induction l as [|y l IH]; [intros _ []|]. simpl. intros H.
  apply orb_false_iff in H as [Hy H]. intros [<-|I]; auto.
Qed.

(** With PATHEXT unset no rule of the table holds a digit. *)
Lemma rules_no_digit nt rule :
  In rule (MATCH_RULES (mkEnv nt EmptyString)) ->
  no_digit (Fnmatch.normcase (mkEnv nt EmptyString) (Py.chars rule)) = true.
Proof.
  assert (H : forallb (fun rule =>
                no_digit (Fnmatch.normcase (mkEnv nt EmptyString) (Py.chars rule)))
                (MATCH_RULES (mkEnv nt EmptyString)) = true)
    by (destruct nt; vm_compute; reflexivity).
  rewrite forallb_forall in H. apply H.
Qed.

Lemma fnmatch_canon nt name rule :
  In rule (MATCH_RULES (mkEnv nt EmptyString)) ->
  Fnmatch.fnmatch (mkEnv nt EmptyString) (map canon_digit name) (Py.chars rule)
  = Fnmatch.fnmatch (mkEnv nt EmptyString) name (Py.chars rule).
Proof.
  intros H. unfold Fnmatch.fnmatch. rewrite normcase_canon.
  apply fnmatchcase_canon. now apply rules_no_digit.
Qed.

Lemma no_rule_two_digit nt impl :
  In impl PYTHON_IMPLEMENTATIONS ->
  existsb (fun rule =>
             Fnmatch.fnmatch (mkEnv nt EmptyString)
               (Py.chars impl ++ ["0"; "."; "0"; "0"]%char) (Py.chars rule))
    (MATCH_RULES (mkEnv nt EmptyString)) = false.
Proof.
  intros H. simpl in H.
  destruct nt; repeat (destruct H as [<-|H]; [vm_compute; reflexivity|]);
    destruct H.
Qed.

Lemma canon_implementation impl :
  In impl PYTHON_IMPLEMENTATIONS ->
  map canon_digit (Py.chars impl) = Py.chars impl.
Proof.
  intros H. simpl in H.
  repeat (destruct H as [<-|H]; [reflexivity|]). destruct H.
Qed.

End TwoDigitFacts.

Import TwoDigitFacts.

(** X19: with PATHEXT unset, on either kind of host, an implementation
    name followed by a one-digit major and a two-digit minor version
    (python3.10, pypy3.11) does not look like python: no rule of the
    table has room for a second digit after the dot. *)
Theorem looks_like_python_two_digit_minor e impl x y z :
  environ_PATHEXT e = EmptyString ->
  In impl PYTHON_IMPLEMENTATIONS ->
  Py.is_digit x = true -> Py.is_digit y = true -> Py.is_digit z = true ->
  looks_like_python e
    (impl ++ String x (String "." (String y (String z EmptyString)))) = false.
Proof.
  intros P H X Y Z. destruct e as [nt pathext]. simpl in P. subst pathext.
  unfold looks_like_python.
  destruct (has_python_prefix _); [simpl|reflexivity].
  destruct (match_ RE_MATCHER _); [|reflexivity].
  apply existsb_false. intros rule R.
  rewrite <- (fnmatch_canon nt _ rule R), chars_app, map_app.
  rewrite (canon_implementation impl H). simpl. unfold canon_digit.
  rewrite X, Y, Z. change (Py.is_digit ".") with false. cbn [negb].
  exact (existsb_false_In _ _ rule (no_rule_two_digit nt impl H) R).
Qed.

Lemma looks_like_python_two_digit_minor_witness :
  looks_like_python posix "python3.10" = false.
Proof.
  apply (looks_like_python_two_digit_minor posix "python" "3" "1" "0");
    try reflexivity.
  left. reflexivity.
Defined.

(** X20: on every host whose PATHEXT holds plain extensions (letters,
    digits, dots, underscores and hyphens between the separators, so
    that the module is imported), an implementation
    name followed by any two characters with a dot between them, the
    first one not being w (python3.9, pypy2.7), looks like python, and
    so does the same name with a final m (python3.6m). *)
Theorem looks_like_python_one_digit_minor e impl x y :
  plain_PATHEXT e = true ->
  In impl PYTHON_IMPLEMENTATIONS -> x <> "w"%char ->
  looks_like_python e
    (impl ++ String x (String "." (String y EmptyString))) = true /\
  looks_like_python e
    (impl ++ String x (String "." (String y "m"))) = true.
Proof.
  intros _ H X.
  assert (W : forall t, Py.startswith (Py.chars (String x t)) (Py.chars "w") = false).
  { intros t. simpl. rewrite startswith_nil, andb_true_r.
    destruct (Py.ascii_eqb "w" x) eqn:W; [|reflexivity].
    apply ascii_eqb_eq in W. congruence. }
  split; (apply looks_like_python_complete; [exact H|apply W|]).
  - exists ("*" ++ impl ++ "?.?")%string. split.
    + apply In_MATCH_RULES. simpl in H.
      repeat (destruct H as [<-|H]; [vm_compute; tauto|]). destruct H.
    + unfold Fnmatch.fnmatch, Fnmatch.normcase. simpl in H.
      destruct (os_name_nt e);
        repeat (destruct H as [<-|H]; [vm_compute; reflexivity|]); destruct H.
  - exists ("*" ++ impl ++ "?.?m")%string. split.
    + apply In_MATCH_RULES. simpl in H.
      repeat (destruct H as [<-|H]; [vm_compute; tauto|]). destruct H.
    + unfold Fnmatch.fnmatch, Fnmatch.normcase. simpl in H.
      destruct (os_name_nt e);
        repeat (destruct H as [<-|H]; [vm_compute; reflexivity|]); destruct H.
Qed.

Lemma looks_like_python_one_digit_minor_witness :
  looks_like_python posix "python3.9" = true.
Proof.
  apply (proj1 (looks_like_python_one_digit_minor posix "python" "3" "9"
                  ltac:(vm_compute; reflexivity)
                  ltac:(left; reflexivity) ltac:(discriminate))).
Defined.

Module MajorFacts.

Lemma leading_after s : s = leading_digits s ++ after_digits s.
Proof.
  induction s as [|c s IH]; [reflexivity|]. simpl.
  destruct (Py.is_digit c); [|reflexivity]. simpl. now rewrite <- IH.
Qed.

Lemma leading_digits_digits s : forallb Py.is_digit (leading_digits s) = true.
Proof.
  induction s as [|c s IH]; [reflexivity|]. simpl.
  destruct (Py.is_digit c) eqn:D; [|reflexivity]. simpl. now rewrite D.
Qed.

Lemma after_digits_start s :
  match after_digits s with c :: _ => Py.is_digit c = false | [] => True end.
Proof.
  induction s as [|c s IH]; [exact I|]. simpl.
  destruct (Py.is_digit c) eqn:D; [exact IH|exact D].
Qed.

Lemma leading_digits_nonempty s :
  starts_with_digit s = true -> leading_digits s <> [].
Proof.
  destruct s as [|c s]; [discriminate|]. simpl. intros ->. discriminate.
Qed.

(** The groups after the first one never bind the name major. *)
Lemma version_re_rest_major w :
  groups_ok (major_is w)
    (SeqL [Opt (Seq (Lit ".") (Group "minor" digits));
           Opt (Seq (Lit ".")
                    (Group "patch" (Seq (Behind (Py.ascii_eqb ".")) digits)));
           Opt (Lit ".");
           Opt (Seq (Group "prerel" (AltL [OneOf "abc"; Lit "rc"; Lit "dev"]))
                    (Opt (Group "prerelversion"
                            (Seq digits (Star (Seq (Lit ".") digits))))));
           Opt (Group "postdev"
                  (Seq (Opt (Seq (Lit ".post") (Group "post" digits)))
                       (Opt (Seq (Lit ".dev") (Group "dev" digits)))))]).
Proof.
  cbn [groups_ok SeqL].
  repeat match goal with |- _ /\ _ => split end;
    try (simpl; tauto);
    intros s s' _; unfold major_is; discriminate.
Qed.

(** The major group holds all the leading digits. *)
Lemma version_re_major_leading s m :
  match_ version_re s = Some m -> get m "major" = Some (leading_digits s).
Proof.
  intros M.
  assert (D : starts_with_digit s = true)
    by (apply match_In in M; now apply version_re_needs_digit in M).
  pose proof (leading_digits_nonempty s D) as N.
  set (w := leading_digits s) in *.
  set (s1 := mkState (rev w ++ []) (after_digits s) [("major"%string, w)]).
  assert (F : first (Group "major" digits) (init s) = Some s1).
  { unfold init. rewrite (leading_after s) at 1.
    apply FirstFacts.first_Group_digits.
    - split; [exact N|apply leading_digits_digits].
    - apply after_digits_start. }
  unfold match_, version_re, version_re_str in M. cbn [SeqL] in M.
  rewrite run_Seq in M. unfold first in F.
  destruct (run (Group "major" digits) (init s)) as [|s1' l]; [discriminate|].
  injection F as ->. cbn [flat_map] in M.
  match type of M with
  | hd_error (run ?tail s1 ++ _) = _ =>
      assert (T : In s1 (run tail s1))
        by (repeat (rewrite run_Seq; apply in_flat_map; exists s1;
                    split; [apply run_Opt_self|]); apply run_Opt_self);
      destruct (run tail s1) as [|m' l'] eqn:E; [destruct T|]
  end.
  simpl in M. injection M as <-.
  assert (I : In m' (m' :: l')) by now left. rewrite <- E in I.
  assert (C : caps_ok (major_is w) (caps m')).
  { eapply run_caps_ok; [apply (version_re_rest_major w)|exact I|].
    repeat constructor. }
  destruct (run_caps_grow _ _ _ I) as [new G].
  destruct (group_app_some new (caps s1) "major" w eq_refl) as [t T'].
  unfold get. rewrite <- G in T'. rewrite T'. f_equal.
  exact (group_caps_ok (major_is w) _ _ _ C T' eq_refl).
Qed.

End MajorFacts.

Import MajorFacts.

(** ** The debug marker *)

(** C8: for every input that ends in -debug, [parse_python_version]
    parses what precedes the marker and records is_debug = True.  With
    rest the text before the marker: when rest does not itself end in
    -debug the outcome is the one of rest, with the flag set; the typed
    error is raised exactly when rest does not begin with a digit; every
    record returned has is_debug = True, major the number spelled by the
    leading digits of rest, minor and patch the numbers of the groups that
    the version grammar binds on rest, the release flags of its groups
    post, prerel and dev, and the version that the strict normalizer
    makes of rest or, failing that, of the canonical string; when rest is
    made of dotted numbers that [int] converts the record is returned and
    holds those numbers; and 2.7.18-debug yields is_debug = True, major 2,
    minor 7, patch 18. *)
Theorem parse_python_version_debug s :
  let raw := (s ++ "-debug")%string in
  let rest := Py.chars s in
  (Py.endswith rest (Py.chars "-debug") = false ->
   parse_python_version raw = set_debug (parse_python_version s)) /\
  (parse_python_version raw = Raise InvalidPythonVersion <->
   starts_with_digit rest = false) /\
  (forall r, parse_python_version raw = Ok r ->
     is_debug r = true /\
     major r = Some (Py.int (leading_digits rest)) /\
     exists m,
       match_ version_re rest = Some m /\
       minor r = option_map Py.int (get m "minor") /\
       patch r = option_map Py.int (get m "patch") /\
       is_postrelease r = truthy (get m "post") /\
       is_prerelease r = truthy (get m "prerel") /\
       is_devrelease r = truthy (get m "dev") /\
       version r = match Packaging.parse rest with
                   | Some v => Some v
                   | None => Packaging.parse (canonical m)
                   end) /\
  (forall a more,
     digit_string a -> Forall digit_string more ->
     within_limit a -> Forall within_limit more ->
     s = Py.str (dotted a more) ->
     parse_python_version raw
     = Ok (mkParsed (Some (Py.int a))
             (option_map Py.int (nth_error more 0))
             (option_map Py.int (nth_error more 1))
             false false false true
             (Some (Packaging.mkVersion 0 (map Py.int (a :: more))
                      None None None None)))) /\
  (exists r, parse_python_version "2.7.18-debug" = Ok r /\
             is_debug r = true /\ major r = Some 2%Z /\
             minor r = Some 7%Z /\ patch r = Some 18%Z).
Proof.
  intros raw rest.
  assert (E : parse_python_version raw = parse_stripped true rest).
  { unfold parse_python_version, raw, rest.
    now rewrite chars_app, strip_debug_app. }
  split; [|split; [|split; [|split]]].
  - intros N. rewrite E. unfold parse_python_version, strip_debug.
    fold rest. rewrite N. apply parse_stripped_set_debug.
  - now rewrite E, parse_stripped_InvalidPythonVersion, version_re_match_iff.
  - intros r H. rewrite E in H.
    apply parse_stripped_fields in H
      as [m [M [Mj [Mi [Pa [Po [Pr [De [D V]]]]]]]]].
    split; [exact D|]. split.
    + rewrite Mj, (version_re_major_leading rest m M).
      apply int_or_None_some, leading_digits_nonempty.
      apply match_In in M. now apply version_re_needs_digit in M.
    + exists m. split; [exact M|].
      rewrite Mi, Pa, Po, Pr, De, V.
      rewrite (int_or_None_group rest m "minor" M),
        (int_or_None_group rest m "patch" M); simpl; auto 10.
  - intros a more A M La Lm ->. rewrite E. unfold rest.
    rewrite MoreNameFacts.chars_str. now apply parse_stripped_dotted.
  - eexists. split; [vm_compute; reflexivity|].
    vm_compute. repeat split.
Qed.

Lemma parse_python_version_debug_witness :
  parse_python_version "3.9-debug"
  = Ok (mkParsed (Some 3%Z) (Some 9%Z) None false false false true
          (Some (Packaging.mkVersion 0 [3%Z; 9%Z] None None None None))).
Proof.
  apply (fun A M La Lm =>
           proj1 (proj2 (proj2 (proj2 (parse_python_version_debug "3.9"))))
             (Py.chars "3") [Py.chars "9"] A M La Lm eq_refl).
  - split; [discriminate|reflexivity].
  - repeat constructor; discriminate.
  - unfold within_limit, Py.int_max_str_digits. simpl. lia.
  - repeat constructor; unfold within_limit, Py.int_max_str_digits; simpl; lia.
Defined.

(** ** The major number *)

(** X21: whenever [parse_python_version] returns, major is the number
    spelled by all the digits the string starts with, whatever follows
    them. *)
Theorem parse_python_version_major raw r :
  parse_python_version raw = Ok r ->
  major r = Some (Py.int (leading_digits (snd (strip_debug (Py.chars raw))))).
Proof.
  unfold parse_python_version.
  destruct (strip_debug (Py.chars raw)) as [d s]. simpl. intros H.
  apply parse_stripped_Ok in H as [m [v [M [Mj _]]]].
  rewrite Mj, (version_re_major_leading s m M).
  apply int_or_None_some, leading_digits_nonempty.
  apply match_In in M. now apply version_re_needs_digit in M.
Qed.

Lemma parse_python_version_major_witness :
  exists r, parse_python_version "312rc1-debug" = Ok r /\ major r = Some 312%Z.
Proof.
  eexists. split; [vm_compute; reflexivity|].
  match goal with
  | |- major ?r = _ =>
      exact (parse_python_version_major "312rc1-debug" r
               ltac:(vm_compute; reflexivity))
  end.
Defined.

(** ** Pre-releases *)

Module PreFacts.

Import FirstFacts DottedFacts.

Lemma forallb_digits_weaken (p : ascii -> bool) w :
  (forall c, Py.is_digit c = true -> p c = true) ->
  forallb Py.is_digit w = true -> forallb p w = true.
Proof.
  intros H. induction w as [|c w IH]; [reflexivity|]. simpl. intros D.
  apply andb_true_iff in D as [Dc D]. now rewrite (H c Dc), IH.
Qed.

Lemma digit_no_bang c : Py.is_digit c = true -> no_bang c = true.
Proof.
  intros D. apply digit_cases in D. simpl in D.
  repeat (destruct D as [<-|D]; [reflexivity|]). destruct D.
Qed.

Lemma digit_lower_fixed c : Py.is_digit c = true -> lower_fixed c = true.
Proof.
  intros D. apply digit_cases in D. simpl in D.
  repeat (destruct D as [<-|D]; [reflexivity|]). destruct D.
Qed.

Lemma lower_fixed_all s : forallb lower_fixed s = true -> Py.lower s = s.
Proof.
  induction s as [|c s IH]; [reflexivity|]. simpl. intros H.
  apply andb_true_iff in H as [L H]. apply PyFacts.ascii_eqb_eq in L.
  now rewrite L, IH.
Qed.

Lemma run_bang_head s :
  match rest s with c :: _ => no_bang c = true | [] => True end ->
  run (Lit "!") s = [].
Proof.
  destruct s as [B [|c t] C]; [reflexivity|]. cbn [rest]. unfold no_bang.
  intros H. apply negb_true_iff in H.
  change (run (Lit "!") (mkState B (c :: t) C))
    with (flat_map (run Eps) (step (Py.ascii_eqb "!") (mkState B (c :: t) C))).
  unfold step. cbn [rest]. now rewrite H.
Qed.

(** No epoch is read from a string without exclamation mark. *)
Lemma run_epoch_no_bang s :
  forallb no_bang (rest s) = true ->
  run (Seq (Group "epoch" Packaging.digits1) (Lit "!")) s = [].
Proof.
  intros H. rewrite run_Seq. apply flat_map_nil. intros s' Hs.
  apply run_bang_head. apply run_extends in Hs as [w [R _]].
  cbn [rest capture] in *. rewrite R, forallb_app in H.
  apply andb_true_iff in H as [_ H].
  destruct (rest s') as [|c t]; [exact I|]. simpl in H.
  now apply andb_true_iff in H as [H _].
Qed.

Lemma run_reject_digit r :
  (forall c, In c ["0"; "1"; "2"; "3"; "4"; "5"; "6"; "7"; "8"; "9"]%char ->
             forall B t C, run r (mkState B (c :: t) C) = []) ->
  forall B c t C, Py.is_digit c = true -> run r (mkState B (c :: t) C) = [].
Proof. intros H B c t C D. apply H. now apply digit_cases. Qed.

Ltac reject_digit D :=
  apply run_reject_digit;
  [ let c := fresh "c" in
    let Hc := fresh "Hc" in
    intros c Hc ? ? ?; simpl in Hc;
    repeat (destruct Hc as [<-|Hc]; [reflexivity|]); destruct Hc
  | exact D ].

(** The release segment stops before what is neither dot nor digit. *)
Lemma star_loop_release_then r more :
  match r with c :: _ => dot_or_digit c = false | [] => True end ->
  forall B C n,
    Forall digit_string more -> length (dot_tail more) <= n ->
    hd_error (star_loop (run (Seq (Lit ".") Packaging.digits1)) n
                (mkState B (dot_tail more ++ r) C))
    = Some (mkState (rev (dot_tail more) ++ B) r C).
Proof.
  intros R.
  assert (Rd : match r with c :: _ => Py.is_digit c = false | [] => True end).
  { destruct r as [|c t]; [exact I|]. unfold dot_or_digit in R.
    now apply orb_false_iff in R as [R _]. }
  induction more as [|b more IH]; intros B C n M L.
  - cbn [dot_tail flat_map app rev]. destruct n; [reflexivity|].
    cbn [star_loop].
    replace (run (Seq (Lit ".") Packaging.digits1) (mkState B r C)) with (@nil state);
      [reflexivity|].
    symmetry. rewrite run_Seq.
    change (run (Lit ".") (mkState B r C))
      with (flat_map (run Eps) (step (Py.ascii_eqb ".") (mkState B r C))).
    unfold step. cbn [rest]. destruct r as [|c t]; [reflexivity|].
    unfold dot_or_digit in R. apply orb_false_iff in R as [_ R]. now rewrite R.
  - inversion M as [|? ? Bd M']; subst.
    destruct n as [|n]; [inversion L|].
    change (dot_tail (b :: more) ++ r)
      with ("."%char :: (b ++ dot_tail more) ++ r).
    rewrite <- app_assoc.
    cbn [star_loop]. apply hd_app.
    apply hd_flat_map
      with (x := mkState (rev b ++ "."%char :: B) (dot_tail more ++ r) C).
    + apply first_Seq
        with (s1 := mkState ("."%char :: B) (b ++ dot_tail more ++ r) C);
        [apply first_Lit_dot|].
      apply first_digits; [exact Bd|]. now destruct more.
    + cbn [rest].
      replace (length (dot_tail more ++ r)
               <? length ("."%char :: b ++ dot_tail more ++ r))
        with true
        by (symmetry; apply Nat.ltb_lt; simpl; rewrite !length_app; lia).
      rewrite IH; [|exact M'|simpl in L; rewrite length_app in L; lia].
      f_equal. f_equal.
      change (dot_tail (b :: more)) with ("."%char :: b ++ dot_tail more).
      simpl. rewrite rev_app_distr, <- !app_assoc. reflexivity.
Qed.

Lemma first_release_then a more r :
  digit_string a -> Forall digit_string more ->
  match r with c :: _ => dot_or_digit c = false | [] => True end ->
  first (Group "release"
           (Seq Packaging.digits1 (Star (Seq (Lit ".") Packaging.digits1))))
    (mkState [] (a ++ dot_tail more ++ r) [])
  = Some (mkState (rev (dot_tail more) ++ rev a ++ []) r
            [("release"%string, a ++ dot_tail more)]).
Proof.
  intros A M R.
  rewrite (first_Group _ _ _ (mkState (rev (dot_tail more) ++ rev a ++ []) r [])).
  - unfold capture. cbn [before rest caps]. f_equal. f_equal. f_equal. f_equal.
    apply text_extends; cbn [before rest].
    + now rewrite app_assoc.
    + now rewrite rev_app_distr, app_nil_r, app_nil_r.
  - apply first_Seq with (s1 := mkState (rev a ++ []) (dot_tail more ++ r) []).
    + apply (first_digits a (dot_tail more ++ r) [] [] A).
      destruct more; [|reflexivity]. cbn [dot_tail flat_map app].
      destruct r as [|c t]; [exact I|]. unfold dot_or_digit in R.
      now apply orb_false_iff in R as [R _].
    + unfold first. rewrite run_Star_loop. apply star_loop_release_then; auto.
      cbn [rest]. rewrite length_app. lia.
Qed.

Lemma first_postdev_end B C :
  first (Opt (Group "postdev"
                (Seq (Opt (Seq (Lit ".post") (Group "post" digits)))
                     (Opt (Seq (Lit ".dev") (Group "dev" digits))))))
    (mkState B [] C)
  = Some (mkState B [] (("postdev"%string, []) :: C)).
Proof.
  rewrite (first_Opt_take _ _ (capture "postdev" (mkState B [] C) (mkState B [] C))).
  - unfold capture. cbn [before rest caps]. now rewrite text_self.
  - apply first_Group. eapply first_Seq; apply first_Opt_skip; reflexivity.
Qed.

Lemma first_prerelversion n B C :
  digit_string n ->
  first (Opt (Group "prerelversion" (Seq digits (Star (Seq (Lit ".") digits)))))
    (mkState B n C)
  = Some (mkState (rev n ++ B) [] (("prerelversion"%string, n) :: C)).
Proof.
  intros N. apply first_Opt_take.
  rewrite (first_Group _ _ _ (mkState (rev n ++ B) [] C)).
  - unfold capture. cbn [before rest caps]. f_equal. f_equal. f_equal. f_equal.
    rewrite <- (app_nil_r n) at 1. now apply text_states.
  - eapply first_Seq.
    + pose proof (first_digits n [] B C N I) as H.
      rewrite app_nil_r in H. exact H.
    + apply first_Star_stop. reflexivity.
Qed.

Lemma first_prerel tag norm n B C :
  In (tag, norm) prerelease_tags ->
  first (Group "prerel" (AltL [OneOf "abc"; Lit "rc"; Lit "dev"]))
    (mkState B (Py.chars tag ++ n) C)
  = Some (mkState (rev (Py.chars tag) ++ B) n
            (("prerel"%string, Py.chars tag) :: C)).
Proof.
  intros H. simpl in H.
  repeat (destruct H as [[= <- <-]|H];
    [ match goal with
      | |- first _ (mkState _ (?T ++ _) _) = _ =>
          rewrite (first_Group _ _ _ (mkState (rev T ++ B) n C));
          [ unfold capture; cbn [before rest caps];
            now rewrite (text_states B T n C)
          | reflexivity ]
      end
    | ]).
  destruct H.
Qed.

(** The version grammar on a pre-release of three numbers. *)
Lemma version_re_pre tag norm a b c n :
  In (tag, norm) prerelease_tags ->
  digit_string a -> digit_string b -> digit_string c -> digit_string n ->
  match_ version_re (a ++ "."%char :: b ++ "."%char :: c ++ Py.chars tag ++ n)
  = Some (mkState
            (rev n ++ rev (Py.chars tag) ++ rev c ++ "."%char :: rev b
             ++ "."%char :: rev a ++ [])
            []
            [("postdev"%string, []); ("prerelversion"%string, n);
             ("prerel"%string, Py.chars tag); ("patch"%string, c);
             ("minor"%string, b); ("major"%string, a)]).
Proof.
  intros T A Bd Cd N.
  assert (R : match Py.chars tag ++ n with
              | x :: _ => Py.is_digit x = false
              | [] => True
              end).
  { simpl in T. repeat (destruct T as [[= <- <-]|T]; [reflexivity|]). destruct T. }
  assert (D : run (Lit ".")
                (mkState (rev c ++ "."%char :: rev b ++ "."%char :: rev a ++ [])
                   (Py.chars tag ++ n)
                   [("patch"%string, c); ("minor"%string, b); ("major"%string, a)])
              = []).
  { simpl in T. repeat (destruct T as [[= <- <-]|T]; [reflexivity|]). destruct T. }
  change (match_ version_re ?x) with (first version_re (init x)).
  unfold version_re, version_re_str, init. cbn [SeqL].
  eapply first_Seq; [now apply first_Group_digits|].
  eapply first_Seq.
  { apply first_Opt_take. eapply first_Seq; [apply first_Lit_dot|].
    now apply first_Group_digits. }
  eapply first_Seq.
  { apply first_Opt_take. eapply first_Seq; [apply first_Lit_dot|].
    now apply first_patch_more. }
  eapply first_Seq; [apply first_Opt_skip; exact D|].
  eapply first_Seq.
  { apply first_Opt_take. eapply first_Seq; [now apply (first_prerel tag norm)|].
    now apply first_prerelversion. }
  apply first_postdev_end.
Qed.

(** The pre-release segment of the strict pattern: tag and number. *)
Lemma first_pre tag norm n B C :
  In (tag, norm) prerelease_tags -> digit_string n ->
  first (Opt (Group "pre"
                (SeqL [Packaging.sep;
                       Group "pre_l"
                         (AltL [Lit "alpha"; Lit "a"; Lit "beta"; Lit "b";
                                Lit "preview"; Lit "pre"; Lit "c"; Lit "rc"]);
                       Packaging.sep;
                       Opt (Group "pre_n" Packaging.digits1)])))
    (mkState B (Py.chars tag ++ n) C)
  = Some (mkState (rev n ++ rev (Py.chars tag) ++ B) []
            (("pre"%string, Py.chars tag ++ n) :: ("pre_n"%string, n)
             :: ("pre_l"%string, Py.chars tag) :: C)).
Proof.
  intros T N. apply first_Opt_take.
  rewrite (first_Group _ _ _
             (mkState (rev n ++ rev (Py.chars tag) ++ B) []
                (("pre_n"%string, n) :: ("pre_l"%string, Py.chars tag) :: C))).
  { unfold capture. cbn [before rest caps]. f_equal. f_equal. f_equal. f_equal.
    apply text_extends; cbn [before rest].
    - now rewrite app_nil_r.
    - now rewrite rev_app_distr, app_assoc. }
  cbn [SeqL].
  destruct n as [|d n'] eqn:En; [now destruct N|]. rewrite <- En in *.
  assert (D : Py.is_digit d = true).
  { destruct N as [_ N]. rewrite En in N. simpl in N.
    now apply andb_true_iff in N as [N _]. }
  apply digit_cases in D.
  assert (S1 : run (OneOf "-_.") (mkState B (Py.chars tag ++ n) C) = []).
  { simpl in T. repeat (destruct T as [[= <- <-]|T]; [reflexivity|]). destruct T. }
  assert (L : first (Group "pre_l"
                       (AltL [Lit "alpha"; Lit "a"; Lit "beta"; Lit "b";
                              Lit "preview"; Lit "pre"; Lit "c"; Lit "rc"]))
                (mkState B (Py.chars tag ++ n) C)
              = Some (mkState (rev (Py.chars tag) ++ B) n
                        (("pre_l"%string, Py.chars tag) :: C))).
  { rewrite (first_Group _ _ _ (mkState (rev (Py.chars tag) ++ B) n C)).
    - unfold capture. cbn [before rest caps].
      now rewrite (text_states B (Py.chars tag) n C).
    - rewrite En. clear -T D. simpl in T, D.
      repeat (destruct T as [[= <- <-]|T];
        [ repeat (destruct D as [<-|D]; [reflexivity|]); destruct D | ]).
      destruct T. }
  assert (S2 : forall B' C', run (OneOf "-_.") (mkState B' n C') = []).
  { intros B' C'. rewrite En. clear -D. simpl in D.
    repeat (destruct D as [<-|D]; [reflexivity|]). destruct D. }
  eapply first_Seq; [apply first_Opt_skip; exact S1|].
  eapply first_Seq; [exact L|].
  eapply first_Seq; [apply first_Opt_skip; apply S2|].
  apply first_Opt_take. now apply first_Group_digits_end.
Qed.

Lemma packaging_match_pre tag norm a b c n :
  In (tag, norm) prerelease_tags ->
  digit_string a -> digit_string b -> digit_string c -> digit_string n ->
  match_ Packaging._regex (a ++ dot_tail [b; c] ++ Py.chars tag ++ n)
  = Some (mkState
            (rev n ++ rev (Py.chars tag) ++ rev (dot_tail [b; c]) ++ rev a ++ [])
            []
            [("pre"%string, Py.chars tag ++ n); ("pre_n"%string, n);
             ("pre_l"%string, Py.chars tag);
             ("release"%string, a ++ dot_tail [b; c])]).
Proof.
  intros T A Bd Cd N.
  assert (R : match Py.chars tag ++ n with
              | x :: _ => dot_or_digit x = false
              | [] => True
              end).
  { clear -T. simpl in T.
    repeat (destruct T as [[= <- <-]|T]; [reflexivity|]). destruct T. }
  assert (NB : forallb no_bang (a ++ dot_tail [b; c] ++ Py.chars tag ++ n) = true).
  { cbn [dot_tail flat_map app]. rewrite app_nil_r.
    repeat first [rewrite forallb_app | progress cbn [forallb]].
    rewrite (forallb_digits_weaken no_bang a digit_no_bang (proj2 A)).
    rewrite (forallb_digits_weaken no_bang b digit_no_bang (proj2 Bd)).
    rewrite (forallb_digits_weaken no_bang c digit_no_bang (proj2 Cd)).
    rewrite (forallb_digits_weaken no_bang n digit_no_bang (proj2 N)).
    clear -T. simpl in T.
    repeat (destruct T as [[= <- <-]|T]; [reflexivity|]). destruct T. }
  destruct a as [|da a'] eqn:Ea; [now destruct A|].
  assert (Da : Py.is_digit da = true).
  { destruct A as [_ A]. simpl in A. now apply andb_true_iff in A as [A _]. }
  rewrite <- Ea in *.
  change (match_ Packaging._regex ?x) with (first Packaging._regex (init x)).
  unfold Packaging._regex, Packaging.VERSION_PATTERN, init. cbn [SeqL].
  eapply first_Seq.
  { apply first_Star_stop. rewrite Ea. cbn [app]. now reject_digit Da. }
  eapply first_Seq.
  { eapply first_Seq.
    { apply first_Opt_skip. rewrite Ea. cbn [app]. now reject_digit Da. }
    eapply first_Seq; [apply first_Opt_skip; now apply run_epoch_no_bang|].
    eapply first_Seq.
    { apply first_release_then; auto. }
    eapply first_Seq; [now apply (first_pre tag norm)|].
    eapply first_Seq; [apply first_Opt_skip; reflexivity|].
    eapply first_Seq; [apply first_Opt_skip; reflexivity|].
    apply first_Opt_skip; reflexivity. }
  eapply first_Seq; [apply first_Star_stop; reflexivity|].
  reflexivity.
Qed.

Lemma pre_shape a b c t :
  a ++ "."%char :: b ++ "."%char :: c ++ t = a ++ dot_tail [b; c] ++ t.
Proof.
  cbn [dot_tail flat_map app]. rewrite app_nil_r.
  f_equal. cbn [app]. f_equal. rewrite <- app_assoc. reflexivity.
Qed.

Lemma packaging_parse_pre tag norm a b c n :
  In (tag, norm) prerelease_tags ->
  digit_string a -> digit_string b -> digit_string c -> digit_string n ->
  Packaging.parse (a ++ "."%char :: b ++ "."%char :: c ++ Py.chars tag ++ n)
  = Some (Packaging.mkVersion 0 [Py.int a; Py.int b; Py.int c]
            (Some (Py.chars norm, Py.int n)) None None None).
Proof.
  intros T A Bd Cd N. unfold Packaging.parse.
  assert (L : forallb lower_fixed
                (a ++ "."%char :: b ++ "."%char :: c ++ Py.chars tag ++ n) = true).
  { repeat first [rewrite forallb_app | progress cbn [forallb]].
    rewrite (forallb_digits_weaken lower_fixed a digit_lower_fixed (proj2 A)).
    rewrite (forallb_digits_weaken lower_fixed b digit_lower_fixed (proj2 Bd)).
    rewrite (forallb_digits_weaken lower_fixed c digit_lower_fixed (proj2 Cd)).
    rewrite (forallb_digits_weaken lower_fixed n digit_lower_fixed (proj2 N)).
    clear -T. simpl in T.
    repeat (destruct T as [[= <- <-]|T]; [reflexivity|]). destruct T. }
  rewrite (lower_fixed_all _ L), pre_shape.
  rewrite (packaging_match_pre tag norm a b c n T A Bd Cd N).
  unfold get. cbn [caps group String.eqb Ascii.eqb Bool.eqb Packaging.truthy
                   option_map].
  rewrite (split_dotted a [b; c] A (Forall_cons _ Bd (Forall_cons _ Cd (Forall_nil _)))).
  clear -T. simpl in T.
  repeat (destruct T as [[= <- <-]|T]; [reflexivity|]). destruct T.
Qed.

(** The strict normalizer converts the numbers of such a pre-release. *)
Lemma packaging_pre_converts tag norm a b c n :
  In (tag, norm) prerelease_tags ->
  digit_string a -> digit_string b -> digit_string c -> digit_string n ->
  within_limit a -> within_limit b -> within_limit c -> within_limit n ->
  Packaging.raises_ValueError
    (a ++ "."%char :: b ++ "."%char :: c ++ Py.chars tag ++ n) = false.
Proof.
  intros T A Bd Cd N La Lb Lc Ln. unfold Packaging.raises_ValueError.
  assert (L : forallb lower_fixed
                (a ++ "."%char :: b ++ "."%char :: c ++ Py.chars tag ++ n) = true).
  { repeat first [rewrite forallb_app | progress cbn [forallb]].
    rewrite (forallb_digits_weaken lower_fixed a digit_lower_fixed (proj2 A)).
    rewrite (forallb_digits_weaken lower_fixed b digit_lower_fixed (proj2 Bd)).
    rewrite (forallb_digits_weaken lower_fixed c digit_lower_fixed (proj2 Cd)).
    rewrite (forallb_digits_weaken lower_fixed n digit_lower_fixed (proj2 N)).
    clear -T. simpl in T.
    repeat (destruct T as [[= <- <-]|T]; [reflexivity|]). destruct T. }
  rewrite (lower_fixed_all _ L), pre_shape.
  rewrite (packaging_match_pre tag norm a b c n T A Bd Cd N).
  unfold get. cbn [caps group String.eqb Ascii.eqb Bool.eqb Packaging.truthy
                   Packaging.too_long orb].
  rewrite (split_dotted a [b; c] A (Forall_cons _ Bd (Forall_cons _ Cd (Forall_nil _)))).
  cbn [existsb].
  now rewrite (within_limit_int a La), (within_limit_int b Lb),
    (within_limit_int c Lc), (within_limit_int n Ln).
Qed.

Lemma endswith_digit_end x n :
  digit_string n -> Py.endswith (x ++ n) (Py.chars "-debug") = false.
Proof.
  intros [Nn N]. unfold Py.endswith. rewrite rev_app_distr.
  rewrite <- OrderFacts.forallb_rev in N.
  destruct (rev n) as [|d l] eqn:E.
  - apply (f_equal (@length ascii)) in E. rewrite length_rev in E.
    destruct n; [congruence|discriminate].
  - simpl in N. apply andb_true_iff in N as [D _].
    apply digit_cases in D. simpl in D.
    repeat (destruct D as [<-|D]; [reflexivity|]). destruct D.
Qed.

Lemma truthy_tag tag norm :
  In (tag, norm) prerelease_tags -> truthy (Some (Py.chars tag)) = true.
Proof.
  intros T. simpl in T.
  repeat (destruct T as [[= <- <-]|T]; [reflexivity|]). destruct T.
Qed.

End PreFacts.

Import PreFacts.

(** X22: a version of three dotted numbers directly followed by one of
    the tags a, b, c, rc and a number (3.12.0rc1, 3.13.0a4), none of the
    four numbers longer than the 4300 digits that [int] converts, is
    parsed without error: the three numbers are major, minor and patch,
    is_prerelease is the only flag set, and the normalized version is
    the release with that pre-release, c being normalized to rc; the
    strict normalizer accepts the string as it is. *)
Theorem parse_python_version_prerelease tag norm a b c n :
  In (tag, norm) prerelease_tags ->
  digit_string a -> digit_string b -> digit_string c -> digit_string n ->
  within_limit a -> within_limit b -> within_limit c -> within_limit n ->
  parse_python_version
    (Py.str (a ++ "."%char :: b ++ "."%char :: c ++ Py.chars tag ++ n))
  = Ok (mkParsed (Some (Py.int a)) (Some (Py.int b)) (Some (Py.int c))
          false true false false
          (Some (Packaging.mkVersion 0 [Py.int a; Py.int b; Py.int c]
                   (Some (Py.chars norm, Py.int n)) None None None)))
  /\ Packaging.parse (a ++ "."%char :: b ++ "."%char :: c ++ Py.chars tag ++ n)
     = Some (Packaging.mkVersion 0 [Py.int a; Py.int b; Py.int c]
               (Some (Py.chars norm, Py.int n)) None None None).
Proof.
  intros T A Bd Cd N La Lb Lc Ln.
  split; [|now apply (packaging_parse_pre tag norm)].
  unfold parse_python_version.
  rewrite MoreNameFacts.chars_str. unfold strip_debug.
  replace (Py.endswith _ (Py.chars "-debug")) with false.
  2:{ symmetry.
      replace (a ++ "."%char :: b ++ "."%char :: c ++ Py.chars tag ++ n)
        with ((a ++ "."%char :: b ++ "."%char :: c ++ Py.chars tag) ++ n).
      - now apply endswith_digit_end.
      - rewrite <- app_assoc. cbn [app]. f_equal. f_equal.
        rewrite <- app_assoc. cbn [app]. f_equal. f_equal.
        now rewrite <- app_assoc. }
  unfold parse_stripped.
  rewrite (version_re_pre tag norm a b c n T A Bd Cd N).
  rewrite (packaging_parse_pre tag norm a b c n T A Bd Cd N).
  rewrite (packaging_pre_converts tag norm a b c n T A Bd Cd N La Lb Lc Ln).
  unfold get. cbn [caps group String.eqb Ascii.eqb Bool.eqb Packaging.too_long].
  rewrite (within_limit_int a La), (within_limit_int b Lb),
    (within_limit_int c Lc). cbn [orb].
  rewrite int_again, (truthy_tag tag norm T).
  rewrite (int_or_None_some a (proj1 A)), (int_or_None_some b (proj1 Bd)),
    (int_or_None_some c (proj1 Cd)).
  reflexivity.
Qed.

Lemma parse_python_version_prerelease_witness :
  parse_python_version "3.12.0rc1"
  = Ok (mkParsed (Some 3%Z) (Some 12%Z) (Some 0%Z) false true false false
          (Some (Packaging.mkVersion 0 [3%Z; 12%Z; 0%Z]
                   (Some (Py.chars "rc", 1%Z)) None None None))).
Proof.
  apply (fun T A B C N La Lb Lc Ln =>
           proj1 (parse_python_version_prerelease "rc" "rc" (Py.chars "3")
                    (Py.chars "12") (Py.chars "0") (Py.chars "1")
                    T A B C N La Lb Lc Ln)).
  - right. right. right. left. reflexivity.
  - split; [discriminate|reflexivity].
  - split; [discriminate|reflexivity].
  - split; [discriminate|reflexivity].
  - split; [discriminate|reflexivity].
  - unfold within_limit, Py.int_max_str_digits. simpl. lia.
  - unfold within_limit, Py.int_max_str_digits. simpl. lia.
  - unfold within_limit, Py.int_max_str_digits. simpl. lia.
  - unfold within_limit, Py.int_max_str_digits. simpl. lia.
Defined.

(** ** Trailing text and the fallback *)

Module FallbackFacts.

Import FirstFacts DottedFacts PreFacts.

Lemma stops_grammar_facts x :
  stops_grammar x = true ->
  Py.is_digit x = false /\
  Py.ascii_eqb "." x = false /\ Py.ascii_eqb "r" x = false /\
  Py.ascii_eqb "d" x = false /\
  Py.ascii_eqb x "a" = false /\ Py.ascii_eqb x "b" = false /\
  Py.ascii_eqb x "c" = false.
Proof.
  unfold stops_grammar. intros H. apply andb_true_iff in H as [D H].
  apply negb_true_iff in D, H. simpl in H.
  repeat (apply orb_false_iff in H as [? H]).
  rewrite (SplitFacts.ascii_eqb_sym "." x), (SplitFacts.ascii_eqb_sym "r" x),
    (SplitFacts.ascii_eqb_sym "d" x).
  auto 10.
Qed.

(** Before such a character the rest of the grammar reads nothing and
    records the empty postdev group. *)
Lemma version_re_tail_stop x j B C :
  stops_grammar x = true ->
  first (SeqL [Opt (Lit ".");
               Opt (Seq (Group "prerel" (AltL [OneOf "abc"; Lit "rc"; Lit "dev"]))
                        (Opt (Group "prerelversion"
                                (Seq digits (Star (Seq (Lit ".") digits))))));
               Opt (Group "postdev"
                      (Seq (Opt (Seq (Lit ".post") (Group "post" digits)))
                           (Opt (Seq (Lit ".dev") (Group "dev" digits)))))])
    (mkState B (x :: j) C)
  = Some (mkState B (x :: j) (("postdev"%string, []) :: C)).
Proof.
  intros S. destruct (stops_grammar_facts x S) as [D [E1 [E2 [E3 [E4 [E5 E6]]]]]].
  cbn [SeqL].
  eapply first_Seq.
  { apply first_Opt_skip. simpl. unfold step. simpl. now rewrite E1. }
  eapply first_Seq.
  { apply first_Opt_skip. simpl. unfold step. simpl.
    now rewrite E4, E5, E6, E2, E3. }
  rewrite (first_Opt_take _ _ (capture "postdev" (mkState B (x :: j) C)
                                 (mkState B (x :: j) C))).
  - unfold capture. cbn [before rest caps]. now rewrite text_self.
  - apply first_Group.
    eapply first_Seq; apply first_Opt_skip; simpl; unfold step; simpl;
      now rewrite E1.
Qed.

Lemma run_dot_stop x j B C X :
  stops_grammar x = true ->
  run (Seq (Lit ".") X) (mkState B (x :: j) C) = [].
Proof.
  intros S. destruct (stops_grammar_facts x S) as [_ [E1 _]].
  rewrite run_Seq. simpl. unfold step. simpl. now rewrite E1.
Qed.

Lemma stops_not_digit x j :
  stops_grammar x = true ->
  match x :: j with c :: _ => Py.is_digit c = false | [] => True end.
Proof. intros S. now destruct (stops_grammar_facts x S) as [D _]. Qed.

(** The groups of the version grammar on dotted numbers followed by
    text that starts with such a character. *)
Lemma version_re_stop a more x j :
  digit_string a -> Forall digit_string more -> length more <= 2 ->
  stops_grammar x = true ->
  exists m,
    match_ version_re (dotted a more ++ x :: j) = Some m /\
    caps m = ("postdev"%string, [])
             :: match more with
                | [b; c] => [("patch"%string, c); ("minor"%string, b)]
                | [b] => [("minor"%string, b)]
                | _ => []
                end
             ++ [("major"%string, a)].
Proof.
  intros A M L S. pose proof (stops_not_digit x j S) as R.
  rewrite dotted_tail, <- app_assoc.
  destruct more as [|b [|c [|d more]]]; [| | |simpl in L; lia];
    cbn [dot_tail flat_map app]; eexists; split.
  - change (match_ version_re ?y) with (first version_re (init y)).
    unfold version_re, version_re_str, init. cbn [SeqL].
    eapply first_Seq; [now apply first_Group_digits|].
    eapply first_Seq; [apply first_Opt_skip; now apply run_dot_stop|].
    eapply first_Seq; [apply first_Opt_skip; now apply run_dot_stop|].
    now apply version_re_tail_stop.
  - reflexivity.
  - inversion M as [|? ? Bd _]; subst. rewrite app_nil_r.
    pose proof (stops_not_digit x j S) as R'.
    change (match_ version_re ?y) with (first version_re (init y)).
    unfold version_re, version_re_str, init. cbn [SeqL].
    eapply first_Seq; [now apply first_Group_digits|].
    eapply first_Seq.
    { apply first_Opt_take. eapply first_Seq; [apply first_Lit_dot|].
      now apply first_Group_digits. }
    eapply first_Seq; [apply first_Opt_skip; now apply run_dot_stop|].
    now apply version_re_tail_stop.
  - reflexivity.
  - inversion M as [|? ? Bd M1]; subst. inversion M1 as [|? ? Cd _]; subst.
    rewrite app_nil_r, <- app_assoc. cbn [app].
    pose proof (stops_not_digit x j S) as R'.
    change (match_ version_re ?y) with (first version_re (init y)).
    unfold version_re, version_re_str, init. cbn [SeqL].
    eapply first_Seq; [now apply first_Group_digits|].
    eapply first_Seq.
    { apply first_Opt_take. eapply first_Seq; [apply first_Lit_dot|].
      now apply first_Group_digits. }
    eapply first_Seq.
    { apply first_Opt_take. eapply first_Seq; [apply first_Lit_dot|].
      now apply first_patch_more. }
    now apply version_re_tail_stop.
  - reflexivity.
Qed.

Lemma truthy_digits a : digit_string a -> truthy (Some a) = true.
Proof. intros [N _]. destruct a; [congruence|reflexivity]. Qed.

(** The canonical string rebuilt from these groups is the dotted
    numbers alone. *)
Lemma canonical_stop a more m :
  digit_string a -> Forall digit_string more -> length more <= 2 ->
  caps m = ("postdev"%string, [])
           :: match more with
              | [b; c] => [("patch"%string, c); ("minor"%string, b)]
              | [b] => [("minor"%string, b)]
              | _ => []
              end
           ++ [("major"%string, a)] ->
  canonical m = dotted a more /\
  get m "major" = Some a /\
  get m "minor" = nth_error more 0 /\
  get m "patch" = nth_error more 1 /\
  get m "prerel" = None /\ get m "post" = None /\ get m "dev" = None.
Proof.
  intros A M L E. unfold canonical, get. rewrite E.
  destruct more as [|b [|c [|d more]]]; [| | |simpl in L; lia].
  - cbn [app group String.eqb Ascii.eqb Bool.eqb andb flat_map].
    rewrite (truthy_digits a A). repeat split.
  - inversion M as [|? ? Bd _]; subst.
    cbn [app group String.eqb Ascii.eqb Bool.eqb andb flat_map].
    rewrite (truthy_digits a A), (truthy_digits b Bd). repeat split.
  - inversion M as [|? ? Bd M1]; subst. inversion M1 as [|? ? Cd _]; subst.
    cbn [app group String.eqb Ascii.eqb Bool.eqb andb flat_map].
    rewrite (truthy_digits a A), (truthy_digits b Bd), (truthy_digits c Cd).
    repeat split.
Qed.

End FallbackFacts.

Import FallbackFacts.

(** X23: when dotted numbers (one to three of them, none longer than
    the 4300 digits that [int] converts) are followed by
    text that the version grammar does not read (it starts with no
    digit, no dot and none of a, b, c, r, d) and that makes the strict
    normalizer reject the string as an invalid version, the fallback
    succeeds: the canonical
    string is the dotted numbers alone and the result is the one of
    those numbers, with no flag set.  So 3.9.1-amd64 parses as 3.9.1. *)
Theorem parse_python_version_trailing_text a more x j :
  digit_string a -> Forall digit_string more -> length more <= 2 ->
  within_limit a -> Forall within_limit more ->
  stops_grammar x = true ->
  Py.endswith (dotted a more ++ x :: j) (Py.chars "-debug") = false ->
  Packaging.parse (dotted a more ++ x :: j) = None ->
  parse_python_version (Py.str (dotted a more ++ x :: j))
  = Ok (mkParsed (Some (Py.int a))
          (option_map Py.int (nth_error more 0))
          (option_map Py.int (nth_error more 1))
          false false false false
          (Some (Packaging.mkVersion 0 (map Py.int (a :: more))
                   None None None None))).
Proof.
  intros A M L La Lm S E P. unfold parse_python_version.
  rewrite MoreNameFacts.chars_str. unfold strip_debug. rewrite E.
  unfold parse_stripped.
  destruct (version_re_stop a more x j A M L S) as [m [Em Cm]].
  destruct (canonical_stop a more m A M L Cm)
    as [Ec [Gj [Gi [Gp [Gr [Gpo Gd]]]]]].
  rewrite Em, (packaging_rejected_converts _ P), P, Ec.
  rewrite (packaging_dotted_converts a more A M La Lm).
  rewrite (packaging_parse_dotted a more A M).
  rewrite Gj, Gi, Gp, Gr, Gpo, Gd, !(too_long_nth more _ Lm).
  cbn [Packaging.too_long]. rewrite (within_limit_int a La). cbn [orb].
  rewrite int_again, !(int_or_None_nth more _ M).
  rewrite (int_or_None_some a (proj1 A)). reflexivity.
Qed.

Lemma parse_python_version_trailing_text_witness :
  parse_python_version "3.9.1-amd64"
  = Ok (mkParsed (Some 3%Z) (Some 9%Z) (Some 1%Z) false false false false
          (Some (Packaging.mkVersion 0 [3%Z; 9%Z; 1%Z] None None None None))).
Proof.
  apply (parse_python_version_trailing_text (Py.chars "3")
           [Py.chars "9"; Py.chars "1"] "-" (Py.chars "amd64")).
  - split; [discriminate|reflexivity].
  - repeat constructor; discriminate.
  - simpl. lia.
  - unfold within_limit, Py.int_max_str_digits. simpl. lia.
  - repeat constructor; unfold within_limit, Py.int_max_str_digits; simpl; lia.
  - reflexivity.
  - vm_compute. reflexivity.
  - vm_compute. reflexivity.
Defined.
